(** * Auto-dismissal of notification banners (static/static/main.js)

    The script registers one [DOMContentLoaded] listener.  The listener
    queries the elements of class [alert], and for each one whose class
    list does not contain the token [alert-danger] it arms a 4000 ms timer
    whose callback asks the UI toolkit for the alert controller of the
    element and closes it, inside a [try]/[catch] with an empty handler.

    The script is embedded as a program of a small state-and-exception
    monad [JS] over a [World]: the document, the toolkit state, the
    listener list, the timer table and a clock.  The browser side (event
    dispatch, the timer queue, other page logic) is the environment; it is
    modelled by [exec] over [Event]s, with a test clock that only moves on
    [EvAdvance]. *)

From Stdlib Require Import List Bool Arith NArith Lia String Ascii.
From Stdlib Require Import Permutation Sorted.
Import ListNotations.

Local Open Scope string_scope.
Local Open Scope N_scope.
Local Open Scope list_scope.

(** ** The document *)

(** A node reference: the identity of an element object. *)
Definition NodeId := nat.
Bind Scope nat_scope with NodeId.

(** An element, reduced to what the script reads: its identity and its
    [class] attribute. *)
Record Element := mkElement { node : NodeId; className : string }.

(** The elements of the page, in document order. *)
Definition Doc := list Element.

(** ASCII whitespace, the separators of the [class] attribute:
    TAB, LF, FF, CR and SPACE. *)
Definition is_ws (c : ascii) : bool :=
  let k := N_of_ascii c in
  (k =? 9) || (k =? 10) || (k =? 12) || (k =? 13) || (k =? 32).

Definition push_token (cur : string) (rest : list string) : list string :=
  match cur with
  | EmptyString => rest
  | _ => cur :: rest
  end.

(** [scan s] is the token being read at the head of [s] and the tokens
    after it. *)
Fixpoint scan (s : string) : string * list string :=
  match s with
  | EmptyString => (EmptyString, [])
  | String c s' =>
      let (cur, rest) := scan s' in
      if is_ws c then (EmptyString, push_token cur rest)
      else (String c cur, rest)
  end.

(** Split on ASCII whitespace, dropping empty tokens. *)
Definition split_ws (s : string) : list string :=
  let (cur, rest) := scan s in push_token cur rest.

(** [el.classList]: the tokens of the [class] attribute. *)
Definition classList (e : Element) : list string := split_ws (className e).

(** [DOMTokenList.contains(token)]: is [tok] one of the tokens, compared
    as whole strings. *)
Definition contains (tok : string) (l : list string) : bool :=
  existsb (String.eqb tok) l.

(** The selectors the script uses: a class selector [.c]. *)
Inductive Selector := ClassSel (c : string).

(** Selector matching (no-quirks mode: class names compare exactly). *)
Definition matches (s : Selector) (e : Element) : bool :=
  match s with
  | ClassSel c => contains c (classList e)
  end.

(** Dereference a node: the element of the page with that identity. *)
Definition lookup (n : NodeId) (d : Doc) : option Element :=
  find (fun e => Nat.eqb (node e) n) d.

(** No two elements of the page are the same node. *)
Fixpoint distinct_nodes (d : Doc) : bool :=
  match d with
  | [] => true
  | e :: d' =>
      negb (existsb (fun e' => Nat.eqb (node e') (node e)) d')
      && distinct_nodes d'
  end.

(** Page mutations used by other page logic or by the user. *)
Definition insert_node (e : Element) (d : Doc) : Doc :=
  if existsb (fun e' => Nat.eqb (node e') (node e)) d then d else d ++ [e].

Definition remove_node (n : NodeId) (d : Doc) : Doc :=
  filter (fun e => negb (Nat.eqb (node e) n)) d.

Definition set_className (n : NodeId) (c : string) (d : Doc) : Doc :=
  map (fun e => if Nat.eqb (node e) n then mkElement n c else e) d.

(** [occurs_in p s]: [p] is a substring of [s]. *)
Fixpoint occurs_in (p s : string) : bool :=
  String.prefix p s ||
  match s with
  | EmptyString => false
  | String _ s' => occurs_in p s'
  end.

(** ** Completions and the UI toolkit *)

(** A thrown value. *)
Definition Err := string.

Inductive Completion (A : Type) : Type :=
| Normal (a : A)
| Throw (e : Err).
Arguments Normal {A} a.
Arguments Throw {A} e.

(** The alert widget API of the toolkit ([bootstrap.Alert]), which the
    script only consumes.  Both operations may throw, and both may change
    the toolkit's own state and the page.  A missing [bootstrap] global is
    a [getOrCreateInstance] that always throws. *)
Record Toolkit := mkToolkit {
  TK : Type;
  Ctl : Type;
  getOrCreateInstance : NodeId -> TK -> Doc -> Completion Ctl * (TK * Doc);
  close : Ctl -> TK -> Doc -> Completion unit * (TK * Doc)
}.

(** ** Timers, listeners, observations *)

(** The function passed to [setTimeout], a closure over [el]. *)
Inductive Callback := DismissCb (el : NodeId).

(** A timer: its handle, the clock value at the [setTimeout] call, the
    delay asked for and the callback. *)
Record Timer := mkTimer {
  tid : nat;
  set_at : N;
  delay : N;
  cb : Callback
}.

Definition due (t : Timer) : N := set_at t + delay t.

Definition target (t : Timer) : NodeId :=
  match cb t with DismissCb el => el end.

Inductive EventType := DOMContentLoaded.

(** The function passed to [addEventListener]. *)
Inductive Listener := AutoDismiss.

(** What an observer of the page records. *)
Inductive Obs :=
| ObsHandler                    (* a ready listener was entered *)
| ObsFired (t : Timer) (at_ : N) (* the callback of [t] was entered at [at_] *)
| ObsGet (n : NodeId)           (* getOrCreateInstance was called on [n] *)
| ObsClose (n : NodeId).        (* close was called on the controller of [n] *)

(** Newest first. *)
Definition Log := list Obs.

Fixpoint fired (l : Log) : list Timer :=
  match l with
  | [] => []
  | ObsFired t _ :: l' => t :: fired l'
  | _ :: l' => fired l'
  end.

(** The clock values at which the timer of handle [k] was fired. *)
Fixpoint fire_times (k : nat) (l : Log) : list N :=
  match l with
  | [] => []
  | ObsFired t a :: l' =>
      if Nat.eqb (tid t) k then a :: fire_times k l' else fire_times k l'
  | _ :: l' => fire_times k l'
  end.

Definition is_get (n : NodeId) (o : Obs) : bool :=
  match o with ObsGet m => Nat.eqb m n | _ => false end.

Definition is_close (n : NodeId) (o : Obs) : bool :=
  match o with ObsClose m => Nat.eqb m n | _ => false end.

Definition is_handler (o : Obs) : bool :=
  match o with ObsHandler => true | _ => false end.

Definition calls_get (n : NodeId) (l : Log) : nat := List.length (filter (is_get n) l).
Definition calls_close (n : NodeId) (l : Log) : nat := List.length (filter (is_close n) l).
Definition handler_runs (l : Log) : nat := List.length (filter is_handler l).

(** The timers of a list that close over [n]. *)
Definition aimed_at (n : NodeId) (l : list Timer) : list Timer :=
  filter (fun t => Nat.eqb (target t) n) l.

(** Stable insertion sort of timers by due time: among equal due times
    the earlier registration runs first. *)
Fixpoint insert_timer (t : Timer) (l : list Timer) : list Timer :=
  match l with
  | [] => [t]
  | u :: l' =>
      if due t <=? due u then t :: u :: l' else u :: insert_timer t l'
  end.

Fixpoint sort_timers (l : list Timer) : list Timer :=
  match l with
  | [] => []
  | t :: l' => insert_timer t (sort_timers l')
  end.

Section Page.

Variable tk : Toolkit.

(** ** The world *)

Record World := mkWorld {
  now : N;                      (* the clock *)
  loaded : bool;                (* DOMContentLoaded has been dispatched *)
  listeners : list Listener;    (* DOMContentLoaded listeners of document *)
  host : TK tk;                 (* the toolkit's state *)
  doc : Doc;                    (* the page *)
  timers : list Timer;          (* pending timers, in registration order *)
  next_id : nat;                (* the next timer handle *)
  scheduled : list Timer;       (* every timer ever armed, oldest first *)
  log : Log;                    (* observations, newest first *)
  uncaught : list Err           (* errors that escaped a task *)
}.

Definition set_now (t : N) (w : World) : World :=
  mkWorld t (loaded w) (listeners w) (host w) (doc w) (timers w)
          (next_id w) (scheduled w) (log w) (uncaught w).

Definition set_loaded (w : World) : World :=
  mkWorld (now w) true (listeners w) (host w) (doc w) (timers w)
          (next_id w) (scheduled w) (log w) (uncaught w).

Definition add_listener (l : Listener) (w : World) : World :=
  mkWorld (now w) (loaded w) (listeners w ++ [l]) (host w) (doc w) (timers w)
          (next_id w) (scheduled w) (log w) (uncaught w).

Definition set_page (p : TK tk * Doc) (w : World) : World :=
  mkWorld (now w) (loaded w) (listeners w) (fst p) (snd p) (timers w)
          (next_id w) (scheduled w) (log w) (uncaught w).

Definition set_timers (l : list Timer) (w : World) : World :=
  mkWorld (now w) (loaded w) (listeners w) (host w) (doc w) l
          (next_id w) (scheduled w) (log w) (uncaught w).

Definition arm (t : Timer) (w : World) : World :=
  mkWorld (now w) (loaded w) (listeners w) (host w) (doc w) (timers w ++ [t])
          (S (next_id w)) (scheduled w ++ [t]) (log w) (uncaught w).

Definition note (o : Obs) (w : World) : World :=
  mkWorld (now w) (loaded w) (listeners w) (host w) (doc w) (timers w)
          (next_id w) (scheduled w) (o :: log w) (uncaught w).

Definition report (e : Err) (w : World) : World :=
  mkWorld (now w) (loaded w) (listeners w) (host w) (doc w) (timers w)
          (next_id w) (scheduled w) (log w) (uncaught w ++ [e]).

(** ** The monad of script code *)

Definition JS (A : Type) : Type := World -> Completion A * World.

Definition ret {A} (a : A) : JS A := fun w => (Normal a, w).

Definition bind {A B} (m : JS A) (k : A -> JS B) : JS B :=
  fun w =>
    match m w with
    | (Normal a, w') => k a w'
    | (Throw e, w') => (Throw e, w')
    end.

Notation "x <- m ;; k" := (bind m (fun x => k))
  (at level 61, m at next level, right associativity).
Notation "m ;;; k" := (bind m (fun _ => k))
  (at level 61, right associativity).

(** [try { m } catch (e) { h e }]. *)
Definition try_catch {A} (m : JS A) (h : Err -> JS A) : JS A :=
  fun w =>
    match m w with
    | (Normal a, w') => (Normal a, w')
    | (Throw e, w') => h e w'
    end.

(** *** Platform operations *)

(** [setTimeout(c, ms)]: arms a timer at the current clock value and
    returns its handle. *)
Definition setTimeout (c : Callback) (ms : N) : JS nat :=
  fun w => (Normal (next_id w), arm (mkTimer (next_id w) (now w) ms c) w).

(** [document.addEventListener(ty, l)]. *)
Definition addEventListener (ty : EventType) (l : Listener) : JS unit :=
  fun w => match ty with DOMContentLoaded => (Normal tt, add_listener l w) end.

(** [document.querySelectorAll(s)]: a static list of node references, in
    document order. *)
Definition querySelectorAll (s : Selector) : JS (list NodeId) :=
  fun w => (Normal (map node (filter (matches s) (doc w))), w).

(** [el.classList.contains(tok)], read from the page as it is now. *)
Definition classList_contains (el : NodeId) (tok : string) : JS bool :=
  fun w =>
    (Normal match lookup el (doc w) with
            | Some e => contains tok (classList e)
            | None => false
            end, w).

(** [list.forEach(f)]. *)
Fixpoint forEach {A} (l : list A) (f : A -> JS unit) : JS unit :=
  match l with
  | [] => ret tt
  | a :: l' => f a ;;; forEach l' f
  end.

(** [bootstrap.Alert.getOrCreateInstance(el)], observed. *)
Definition Alert_getOrCreateInstance (el : NodeId) : JS (Ctl tk) :=
  fun w =>
    let w1 := note (ObsGet el) w in
    let (r, p) := getOrCreateInstance tk el (host w1) (doc w1) in
    (r, set_page p w1).

(** [bs.close()] on the controller obtained for [el], observed. *)
Definition Alert_close (el : NodeId) (bs : Ctl tk) : JS unit :=
  fun w =>
    let w1 := note (ObsClose el) w in
    let (r, p) := close tk bs (host w1) (doc w1) in
    (r, set_page p w1).

(** ** The script *)

(** The timer callback (main.js, lines 6-8). *)
Definition dismiss (el : NodeId) : JS unit :=
  try_catch
    (bs <- Alert_getOrCreateInstance el ;; Alert_close el bs)
    (fun _ => ret tt).

(** The body of the [forEach] (main.js, lines 4-10). *)
Definition visit (el : NodeId) : JS unit :=
  danger <- classList_contains el "alert-danger" ;;
  if negb danger
  then setTimeout (DismissCb el) 4000 ;;; ret tt
  else ret tt.

(** The ready listener (main.js, lines 2-11). *)
Definition on_ready : JS unit :=
  els <- querySelectorAll (ClassSel "alert") ;;
  forEach els visit.

(** The top level of the script (main.js, line 2). *)
Definition main : JS unit :=
  addEventListener DOMContentLoaded AutoDismiss.

(** ** The environment *)

Definition run_callback (c : Callback) : JS unit :=
  match c with DismissCb el => dismiss el end.

Definition run_listener (l : Listener) : JS unit :=
  match l with AutoDismiss => on_ready end.

Definition halted (w : World) : bool :=
  match uncaught w with [] => false | _ => true end.

(** Run a task to completion.  An error that escapes it is recorded, and
    a world with a recorded error processes nothing further: the
    strictest host, one that stops at the first uncaught error. *)
Definition run_task (m : JS unit) (w : World) : World :=
  match m w with
  | (Normal _, w') => w'
  | (Throw e, w') => report e w'
  end.

Definition dispatch (l : Listener) (w : World) : World :=
  if halted w then w else run_task (run_listener l) (note ObsHandler w).

(** Fire one timer: the clock stands at its due time while the callback
    runs. *)
Definition fire (t : Timer) (w : World) : World :=
  if halted w then w
  else
    let at_ := N.max (now w) (due t) in
    run_task (run_callback (cb t)) (note (ObsFired t at_) (set_now at_ w)).

Definition ripe (deadline : N) (t : Timer) : bool := due t <=? deadline.

(** Move the clock forward by [dt]: the timers due by then run in order of
    due time, then the clock stands at the new value. *)
Definition advance (dt : N) (w : World) : World :=
  let deadline := now w + dt in
  let batch := sort_timers (filter (ripe deadline) (timers w)) in
  let w1 := set_timers (filter (fun t => negb (ripe deadline t)) (timers w)) w in
  let w2 := fold_left (fun w t => fire t w) batch w1 in
  if halted w2 then w2 else set_now deadline w2.

Inductive Event :=
| EvScript                       (* the script is evaluated *)
| EvReady                        (* the browser reaches the ready point *)
| EvAdvance (dt : N)             (* time passes *)
| EvHost (f : TK tk -> Doc -> TK tk * Doc).  (* other page logic, the user *)

(** The browser dispatches [DOMContentLoaded] once per document, to the
    listeners registered by then. *)
Definition exec (ev : Event) (w : World) : World :=
  if halted w then w
  else
    match ev with
    | EvScript => run_task main w
    | EvReady =>
        if loaded w then w
        else fold_left (fun w l => dispatch l w) (listeners w) (set_loaded w)
    | EvAdvance dt => advance dt w
    | EvHost f => set_page (f (host w) (doc w)) w
    end.

Definition run (evs : list Event) (w : World) : World :=
  fold_left (fun w ev => exec ev w) evs w.

(** A fresh page load at clock value [t0]. *)
Definition page_load (t0 : N) (s0 : TK tk) (d : Doc) : World :=
  mkWorld t0 false [] s0 d [] 0%nat [] [] [].

Definition is_ready (ev : Event) : bool :=
  match ev with EvReady => true | _ => false end.

Definition is_script (ev : Event) : bool :=
  match ev with EvScript => true | _ => false end.

(** No ready event in the trace. *)
Definition no_ready (evs : list Event) : bool := negb (existsb is_ready evs).

(** How many times the script is evaluated in the trace. *)
Definition scripts_in (evs : list Event) : nat :=
  List.length (filter is_script evs).

(** ** What the listener arms, in closed form *)

(** The value [el.classList.contains('alert-danger')] has in page [d]. *)
Definition danger (d : Doc) (el : NodeId) : bool :=
  match lookup el d with
  | Some e => contains "alert-danger" (classList e)
  | None => false
  end.

(** The nodes the listener arms a timer for, in order. *)
Definition eligible (d : Doc) : list NodeId :=
  filter (fun el => negb (danger d el))
         (map node (filter (matches (ClassSel "alert")) d)).

(** Timers with consecutive handles from [k], all armed at [t0]. *)
Fixpoint fresh (k : nat) (t0 : N) (els : list NodeId) : list Timer :=
  match els with
  | [] => []
  | el :: els' => mkTimer k t0 4000 (DismissCb el) :: fresh (S k) t0 els'
  end.

Definition arm_all (l : list Timer) (w : World) : World :=
  fold_left (fun w t => arm t w) l w.

(** The timers one run of the listener arms in [w]. *)
Definition armed_by_ready (w : World) : list Timer :=
  skipn (List.length (scheduled w)) (scheduled (snd (on_ready w))).

(** Does the toolkit hand out a controller for [el] in [w]? *)
Definition obtains (el : NodeId) (w : World) : bool :=
  match fst (getOrCreateInstance tk el (host w) (doc w)) with
  | Normal _ => true
  | Throw _ => false
  end.

(** What one run of the timer callback adds to the log; [got] says whether
    the toolkit handed out a controller. *)
Definition calls_made (el : NodeId) (got : bool) : Log :=
  if got then [ObsClose el; ObsGet el] else [ObsGet el].

(** The world after the timer callback: the log grows by the calls made,
    the page is the one the toolkit leaves. *)
Definition after_dismiss (el : NodeId) (w : World) : World :=
  let w1 := note (ObsGet el) w in
  match getOrCreateInstance tk el (host w) (doc w) with
  | (Normal c, p) =>
      let w2 := note (ObsClose el) (set_page p w1) in
      set_page (snd (close tk c (fst p) (snd p))) w2
  | (Throw _, p) => set_page p w1
  end.

(** ** Invariants of the page *)

(** The toolkit always hands out a controller. *)
Definition accessor_total : Prop :=
  forall el s d, exists c p, getOrCreateInstance tk el s d = (Normal c, p).


(** A firing is logged at the due time of its timer, which is past. *)
Definition obs_ok (t_now : N) (o : Obs) : Prop :=
  match o with
  | ObsFired t a => a = due t /\ a <= t_now
  | _ => True
  end.

(** [Good w batch]: the bookkeeping of [w] is consistent while the timers
    of [batch] have left the queue and are about to run. *)
Record Good (w : World) (batch : list Timer) : Prop := mkGood {
  g_uncaught : uncaught w = [];
  g_perm : Permutation (scheduled w) (timers w ++ batch ++ fired (log w));
  g_ids : Forall (fun t => (tid t < next_id w)%nat) (scheduled w);
  g_nodup : NoDup (map tid (scheduled w));
  g_log : Forall (obs_ok (now w)) (log w);
  g_gets : forall n,
      calls_get n (log w) = List.length (aimed_at n (fired (log w)));
  g_closes : forall n, (calls_close n (log w) <= calls_get n (log w))%nat;
  g_total : accessor_total ->
            forall n, calls_close n (log w) = calls_get n (log w)
}.

(** Between events no timer is in flight and every pending timer is due
    in the future. *)
Definition Inv (w : World) : Prop :=
  Good w [] /\ Forall (fun t => now w < due t) (timers w).

(** [Quiet w w']: from [w] to [w'] the ready listener has not run and
    nothing was armed. *)
Record Quiet (w w' : World) : Prop := mkQuiet {
  q_loaded : loaded w' = loaded w;
  q_scheduled : scheduled w' = scheduled w;
  q_next : next_id w' = next_id w;
  q_handlers : handler_runs (log w') = handler_runs (log w);
  q_now : now w <= now w'
}.

End Page.

Arguments now {tk} w.
Arguments loaded {tk} w.
Arguments listeners {tk} w.
Arguments host {tk} w.
Arguments doc {tk} w.
Arguments timers {tk} w.
Arguments next_id {tk} w.
Arguments scheduled {tk} w.
Arguments log {tk} w.
Arguments uncaught {tk} w.
Arguments set_now {tk} t w.
Arguments set_loaded {tk} w.
Arguments add_listener {tk} l w.
Arguments set_page {tk} p w.
Arguments set_timers {tk} l w.
Arguments arm {tk} t w.
Arguments note {tk} o w.
Arguments report {tk} e w.
Arguments ret {tk A} a w.
Arguments bind {tk A B} m k w.
Arguments try_catch {tk A} m h w.
Arguments setTimeout {tk} c ms w.
Arguments addEventListener {tk} ty l w.
Arguments querySelectorAll {tk} s w.
Arguments classList_contains {tk} el tok w.
Arguments forEach {tk A} l f w.
Arguments Alert_getOrCreateInstance {tk} el w.
Arguments Alert_close {tk} el bs w.
Arguments dismiss {tk} el w.
Arguments visit {tk} el w.
Arguments on_ready {tk} w.
Arguments main {tk} w.
Arguments run_callback {tk} c w.
Arguments run_listener {tk} l w.
Arguments halted {tk} w.
Arguments run_task {tk} m w.
Arguments dispatch {tk} l w.
Arguments fire {tk} t w.
Arguments advance {tk} dt w.
Arguments EvScript {tk}.
Arguments EvReady {tk}.
Arguments EvAdvance {tk} dt.
Arguments EvHost {tk} f.
Arguments exec {tk} ev w.
Arguments run {tk} evs w.
Arguments is_ready {tk} ev.
Arguments is_script {tk} ev.
Arguments no_ready {tk} evs.
Arguments scripts_in {tk} evs.
Arguments arm_all {tk} l w.
Arguments armed_by_ready {tk} w.
Arguments obtains {tk} el w.
Arguments after_dismiss {tk} el w.
Arguments Good {tk} w batch.
Arguments Inv {tk} w.
Arguments Quiet {tk} w w'.
Arguments g_uncaught {tk w batch} _.
Arguments g_perm {tk w batch} _.
Arguments g_ids {tk w batch} _.
Arguments g_nodup {tk w batch} _.
Arguments g_log {tk w batch} _.
Arguments g_gets {tk w batch} _.
Arguments g_closes {tk w batch} _.
Arguments g_total {tk w batch} _.
Arguments q_loaded {tk w w'} _.
Arguments q_scheduled {tk w w'} _.
Arguments q_next {tk w w'} _.
Arguments q_handlers {tk w w'} _.
Arguments q_now {tk w w'} _.

(** Timers run in order of due time. *)
Definition due_le (a b : Timer) : Prop := due a <= due b.

(** Is node [n] an element of the page? *)
Definition in_page (n : NodeId) (d : Doc) : bool :=
  existsb (fun e => Nat.eqb (node e) n) d.

(** What the listener can see of a page: its alert elements, each with
    its danger marker. *)
Definition alert_view (d : Doc) : list (NodeId * bool) :=
  map (fun e => (node e, contains "alert-danger" (classList e)))
      (filter (matches (ClassSel "alert")) d).

(** * Sample toolkits and pages *)

(** A toolkit that works: the controller of a node is the node itself and
    [close] detaches it from the page. *)
Definition working : Toolkit :=
  mkToolkit unit NodeId
    (fun el s d => (Normal el, (s, d)))
    (fun c s d => (Normal tt, (s, remove_node c d))).

(** A page without the toolkit: reading [bootstrap] throws. *)
Definition missing : Toolkit :=
  mkToolkit unit unit
    (fun el s d => (Throw "ReferenceError: bootstrap is not defined", (s, d)))
    (fun c s d => (Normal tt, (s, d))).

(** A toolkit whose [close] throws on a node that has left the page. *)
Definition strict : Toolkit :=
  mkToolkit unit NodeId
    (fun el s d => (Normal el, (s, d)))
    (fun c s d =>
       if in_page c d then (Normal tt, (s, remove_node c d))
       else (Throw "NotFoundError: the node is gone", (s, d))).

Definition alertA : Element := mkElement 1 "alert alert-success".
Definition alertB : Element := mkElement 2 "alert alert-danger".
Definition alertC : Element := mkElement 3 "alert alert-info fade show".
Definition alertD : Element := mkElement 4 "alert alert-danger-custom".
Definition alertE : Element := mkElement 5 "alert alert-warning".
Definition heading : Element := mkElement 9 "h1 page-title".

Definition three_alerts : Doc := [heading; alertA; alertB; alertC].

(** Other page logic: the user dismisses a banner by hand, a late banner
    is inserted, a banner is re-marked. *)
Definition user_removes {tk : Toolkit} (n : NodeId) : Event tk :=
  EvHost (fun s d => (s, remove_node n d)).

Definition page_inserts {tk : Toolkit} (e : Element) : Event tk :=
  EvHost (fun s d => (s, insert_node e d)).

Definition page_remarks {tk : Toolkit} (n : NodeId) (c : string) : Event tk :=
  EvHost (fun s d => (s, set_className n c d)).


(** The elements the listener is after: alerts without the danger
    marker. *)
Definition wanted (e : Element) : bool :=
  matches (ClassSel "alert") e && negb (contains "alert-danger" (classList e)).

(** * Proofs *)

Section Proofs.

Context {tk : Toolkit}.
Implicit Types (w : World tk) (t : Timer) (n el : NodeId) (d : Doc).

(** ** Sorting *)

Lemma insert_timer_perm t l : Permutation (insert_timer t l) (t :: l).
Proof.
  induction l as [|u l IH]; simpl; [reflexivity|].
  destruct (due t <=? due u); [reflexivity|].
  rewrite IH. apply perm_swap.
Qed.

Lemma sort_timers_perm l : Permutation (sort_timers l) l.
Proof.
  induction l as [|t l IH]; simpl; [reflexivity|].
  rewrite insert_timer_perm. now constructor.
Qed.

Lemma insert_timer_sorted t l :
  StronglySorted due_le l -> StronglySorted due_le (insert_timer t l).
Proof.
  induction 1 as [|u l Hs IH Hall]; simpl.
  - repeat constructor.
  - destruct (N.leb_spec (due t) (due u)) as [Hle|Hgt].
    + constructor; [now constructor|].
      constructor; [exact Hle|].
      eapply Forall_impl; [|exact Hall].
      intros c Hc. unfold due_le in *. lia.
    + constructor; [exact IH|].
      rewrite (Forall_forall (due_le u)). intros c Hc.
      apply (Permutation_in _ (insert_timer_perm t l)) in Hc.
      destruct Hc as [<-|Hc].
      * unfold due_le. lia.
      * rewrite Forall_forall in Hall. now apply Hall.
Qed.

Lemma sort_timers_sorted l : StronglySorted due_le (sort_timers l).
Proof.
  induction l as [|t l IH]; simpl; [constructor|].
  now apply insert_timer_sorted.
Qed.

(** ** The script, step by step *)

Lemma arm_all_nil w : arm_all [] w = w.
Proof. reflexivity. Qed.

Lemma arm_all_cons t l w : arm_all (t :: l) w = arm_all l (arm t w).
Proof. reflexivity. Qed.

Lemma arm_all_fields l w :
  let w' := arm_all l w in
  now w' = now w /\ loaded w' = loaded w /\ listeners w' = listeners w /\
  host w' = host w /\ doc w' = doc w /\ log w' = log w /\
  uncaught w' = uncaught w /\
  timers w' = timers w ++ l /\ scheduled w' = scheduled w ++ l /\
  next_id w' = (next_id w + List.length l)%nat.
Proof.
  revert w. induction l as [|t l IH]; intros w; cbn zeta.
  - rewrite arm_all_nil, !app_nil_r, Nat.add_0_r. repeat split.
  - rewrite arm_all_cons.
    destruct (IH (arm t w)) as (E1 & E2 & E3 & E4 & E5 & E6 & E7 & E8 & E9 & E10).
    rewrite E1, E2, E3, E4, E5, E6, E7, E8, E9, E10. simpl.
    rewrite <- !app_assoc. simpl. repeat split. lia.
Qed.

Lemma visit_eq el w :
  visit el w =
  (Normal tt,
   if danger (doc w) el then w
   else arm (mkTimer (next_id w) (now w) 4000 (DismissCb el)) w).
Proof.
  unfold visit, bind, classList_contains, danger.
  destruct (lookup el (doc w)) as [e|]; [|reflexivity].
  destruct (contains "alert-danger" (classList e)); reflexivity.
Qed.

Lemma forEach_visit els w :
  forEach els visit w =
  (Normal tt,
   arm_all (fresh (next_id w) (now w)
                  (filter (fun el => negb (danger (doc w) el)) els)) w).
Proof.
  revert w. induction els as [|el els IH]; intros w; [reflexivity|].
  simpl forEach. unfold bind at 1. rewrite visit_eq, IH. simpl filter.
  destruct (danger (doc w) el); simpl; reflexivity.
Qed.

(** The listener never throws, and arms one timer per eligible node with
    the clock value of the moment. *)
Lemma on_ready_eq w :
  on_ready w =
  (Normal tt, arm_all (fresh (next_id w) (now w) (eligible (doc w))) w).
Proof.
  unfold on_ready, bind, querySelectorAll. now rewrite forEach_visit.
Qed.

Lemma armed_by_ready_eq w :
  armed_by_ready w = fresh (next_id w) (now w) (eligible (doc w)).
Proof.
  unfold armed_by_ready. rewrite on_ready_eq. cbn [snd].
  destruct (arm_all_fields (fresh (next_id w) (now w) (eligible (doc w))) w)
    as (_ & _ & _ & _ & _ & _ & _ & _ & E & _).
  rewrite E, skipn_app, skipn_all, Nat.sub_diag. reflexivity.
Qed.

(** The timer callback completes normally whatever the toolkit does. *)
Lemma dismiss_eq el w : dismiss el w = (Normal tt, after_dismiss el w).
Proof.
  unfold dismiss, try_catch, bind, Alert_getOrCreateInstance, Alert_close,
    after_dismiss.
  cbn [host doc note].
  destruct (getOrCreateInstance tk el (host w) (doc w)) as [[c|e] p];
    cbn [host doc note set_page fst snd]; [|reflexivity].
  destruct (close tk c (fst p) (snd p)) as [[[]|e] p']; reflexivity.
Qed.

Lemma after_dismiss_fields el w :
  let w' := after_dismiss el w in
  now w' = now w /\ loaded w' = loaded w /\ listeners w' = listeners w /\
  timers w' = timers w /\ scheduled w' = scheduled w /\
  next_id w' = next_id w /\ uncaught w' = uncaught w /\
  log w' = calls_made el (obtains el w) ++ log w.
Proof.
  unfold after_dismiss, obtains, calls_made.
  destruct (getOrCreateInstance tk el (host w) (doc w)) as [[c|e] p];
    cbn; repeat split.
Qed.

(** ** Counting in the log *)

Lemma fired_app (l1 l2 : Log) : fired (l1 ++ l2) = fired l1 ++ fired l2.
Proof.
  induction l1 as [|o l1 IH]; [reflexivity|].
  destruct o; simpl; now rewrite IH.
Qed.

Lemma calls_get_app n (l1 l2 : Log) :
  calls_get n (l1 ++ l2) = (calls_get n l1 + calls_get n l2)%nat.
Proof. unfold calls_get. now rewrite filter_app, length_app. Qed.

Lemma calls_close_app n (l1 l2 : Log) :
  calls_close n (l1 ++ l2) = (calls_close n l1 + calls_close n l2)%nat.
Proof. unfold calls_close. now rewrite filter_app, length_app. Qed.

Lemma handler_runs_app (l1 l2 : Log) :
  handler_runs (l1 ++ l2) = (handler_runs l1 + handler_runs l2)%nat.
Proof. unfold handler_runs. now rewrite filter_app, length_app. Qed.

(** The timers due by [deadline] and the others make up the queue. *)
Lemma ripe_split (deadline : N) (q : list Timer) :
  Permutation
    (filter (ripe deadline) q ++ filter (fun t => negb (ripe deadline t)) q)
    q.
Proof.
  induction q as [|t q IH]; cbn [filter app]; [constructor|].
  destruct (ripe deadline t); cbn [negb app].
  - now apply perm_skip.
  - symmetry. apply Permutation_cons_app. now symmetry.
Qed.

Lemma NoDup_map_app_sep {A B} (f : A -> B) (l1 l2 : list A) a b :
  NoDup (map f (l1 ++ l2)) -> In a l1 -> In b l2 -> f a <> f b.
Proof.
  rewrite map_app. induction l1 as [|x l1 IH]; simpl; [tauto|].
  intros Hnd [->|Ha] Hb.
  - inversion Hnd as [|? ? Hni _]; subst. intros E. apply Hni.
    rewrite E. apply in_or_app. right. now apply in_map.
  - inversion Hnd; subst. now apply IH.
Qed.

(** ** Preservation of the bookkeeping *)

Lemma Good_ext w w' b :
  uncaught w' = uncaught w -> scheduled w' = scheduled w ->
  timers w' = timers w -> next_id w' = next_id w ->
  log w' = log w -> now w' = now w ->
  Good w b -> Good w' b.
Proof.
  intros E1 E2 E3 E4 E5 E6 [].
  constructor; rewrite ?E1, ?E2, ?E3, ?E4, ?E5, ?E6; assumption.
Qed.

Lemma Good_not_halted w b : Good w b -> halted w = false.
Proof. intros G. unfold halted. now rewrite (g_uncaught G). Qed.

Lemma Good_arm w b (t0 dl : N) c :
  Good w b -> Good (arm (mkTimer (next_id w) t0 dl c) w) b.
Proof.
  intros []. constructor; cbn [arm uncaught scheduled timers next_id log now];
    try assumption.
  - rewrite g_perm0, <- !app_assoc. apply Permutation_app_head.
    rewrite app_assoc. symmetry. apply Permutation_cons_append.
  - apply Forall_app. split.
    + eapply Forall_impl; [|exact g_ids0]. cbn. intros; lia.
    + repeat constructor.
  - rewrite map_app. cbn [map tid].
    apply (Permutation_NoDup (Permutation_cons_append _ _)).
    constructor; [|assumption].
    intros Hin. apply in_map_iff in Hin. destruct Hin as (u & Eu & Hu).
    rewrite Forall_forall in g_ids0. specialize (g_ids0 _ Hu). lia.
Qed.

Lemma Good_arm_all w b (t0 : N) els :
  Good w b -> Good (arm_all (fresh (next_id w) t0 els) w) b.
Proof.
  revert w. induction els as [|el els IH]; intros w G; [exact G|].
  cbn [fresh]. rewrite arm_all_cons.
  apply (IH (arm (mkTimer (next_id w) t0 4000 (DismissCb el)) w)).
  now apply Good_arm.
Qed.

Lemma fresh_due k (t0 : N) els :
  Forall (fun t => set_at t = t0 /\ delay t = 4000) (fresh k t0 els).
Proof.
  revert k. induction els as [|el els IH]; intros k; cbn [fresh];
    constructor; auto.
Qed.

Lemma Good_note_handler w b : Good w b -> Good (note ObsHandler w) b.
Proof.
  intros []. constructor; cbn [note uncaught scheduled timers next_id log now fired];
    try assumption.
  constructor; [exact I|assumption].
Qed.

Lemma obs_ok_mono a b o : a <= b -> obs_ok a o -> obs_ok b o.
Proof. destruct o; cbn; intros; try tauto. intuition lia. Qed.

Lemma Good_set_now w b (t' : N) : now w <= t' -> Good w b -> Good (set_now t' w) b.
Proof.
  intros Hle []. constructor; cbn [set_now uncaught scheduled timers next_id log now];
    try assumption.
  eapply Forall_impl; [|exact g_log0]. intros o. now apply obs_ok_mono.
Qed.

Lemma Good_set_page w b p : Good w b -> Good (set_page p w) b.
Proof. now apply Good_ext. Qed.

Lemma Good_add_listener w b l : Good w b -> Good (add_listener l w) b.
Proof. now apply Good_ext. Qed.

Lemma Good_set_loaded w b : Good w b -> Good (set_loaded w) b.
Proof. now apply Good_ext. Qed.

(** ** Firing timers *)

Lemma fire_eq t w :
  halted w = false -> now w <= due t ->
  fire t w =
  after_dismiss (target t) (note (ObsFired t (due t)) (set_now (due t) w)).
Proof.
  intros Hh Hle. unfold fire. rewrite Hh, N.max_r by exact Hle.
  unfold run_task, run_callback, target. destruct (cb t) as [el].
  now rewrite dismiss_eq.
Qed.

Lemma extra_counts el (c : bool) n :
  fired (calls_made el c) = [] /\
  handler_runs (calls_made el c) = 0%nat /\
  calls_get n (calls_made el c) = (if Nat.eqb el n then 1 else 0)%nat /\
  calls_close n (calls_made el c) = (if c && Nat.eqb el n then 1 else 0)%nat.
Proof.
  unfold calls_get, calls_close, handler_runs, calls_made.
  destruct c; cbn; destruct (Nat.eqb el n); repeat split.
Qed.

Lemma accessor_total_obtains el w : accessor_total tk -> obtains el w = true.
Proof.
  intros Ht. unfold obtains.
  destruct (Ht el (host w) (doc w)) as (c & p & ->). reflexivity.
Qed.

Lemma Good_fire t w b :
  Good w (t :: b) -> now w <= due t -> Good (fire t w) b.
Proof.
  intros G Hle. rewrite (fire_eq t w (Good_not_halted _ _ G) Hle).
  set (w0 := note (ObsFired t (due t)) (set_now (due t) w)).
  destruct (after_dismiss_fields (target t) w0)
    as (E1 & _ & _ & E4 & E5 & E6 & E7 & E8).
  cbn [w0 note set_now now timers scheduled next_id uncaught log] in *.
  set (c := obtains (target t) w0) in *.
  destruct G.
  constructor; rewrite ?E1, ?E4, ?E5, ?E6, ?E7, ?E8; try assumption.
  - rewrite fired_app.
    destruct (extra_counts (target t) c 0%nat) as (-> & _). cbn [app fired].
    rewrite g_perm0. apply Permutation_app_head.
    cbn [app]. apply Permutation_middle.
  - apply Forall_app. split.
    + destruct c; repeat constructor.
    + constructor; [cbn; split; [reflexivity|lia]|].
      eapply Forall_impl; [|exact g_log0]. intros o. now apply obs_ok_mono.
  - intros n. rewrite calls_get_app, fired_app.
    destruct (extra_counts (target t) c n) as (-> & _ & -> & _).
    cbn [app fired]. unfold calls_get at 1. cbn [filter is_get].
    fold (calls_get n (log w)). rewrite g_gets0.
    unfold aimed_at. cbn [filter].
    destruct (Nat.eqb (target t) n); reflexivity.
  - intros n. rewrite calls_get_app, calls_close_app.
    destruct (extra_counts (target t) c n) as (_ & _ & -> & ->).
    unfold calls_get at 1, calls_close at 1. cbn [filter is_get is_close].
    fold (calls_get n (log w)). fold (calls_close n (log w)).
    specialize (g_closes0 n).
    destruct c, (Nat.eqb (target t) n); cbn; lia.
  - intros Ht n. rewrite calls_get_app, calls_close_app.
    destruct (extra_counts (target t) c n) as (_ & _ & -> & ->).
    unfold calls_get at 1, calls_close at 1. cbn [filter is_get is_close].
    fold (calls_get n (log w)). fold (calls_close n (log w)).
    rewrite (g_total0 Ht n).
    assert (Hc : c = true) by (subst c; now apply accessor_total_obtains).
    rewrite Hc. reflexivity.
Qed.

Lemma fire_now_timers t w :
  halted w = false -> now w <= due t ->
  now (fire t w) = due t /\ timers (fire t w) = timers w.
Proof.
  intros Hh Hle. rewrite (fire_eq t w Hh Hle).
  destruct (after_dismiss_fields (target t)
              (note (ObsFired t (due t)) (set_now (due t) w)))
    as (E1 & _ & _ & E4 & _).
  now rewrite E1, E4.
Qed.

Lemma Good_fire_all (deadline : N) batch :
  forall w,
    Good w batch -> StronglySorted due_le batch ->
    Forall (fun t => now w <= due t /\ due t <= deadline) batch ->
    now w <= deadline ->
    let w' := fold_left (fun w t => fire t w) batch w in
    Good w' [] /\ now w' <= deadline /\ timers w' = timers w.
Proof.
  induction batch as [|t batch IH]; intros w G Hs Hd Hn; cbn [fold_left].
  - auto.
  - inversion Hs as [|? ? Hs' Hall]; subst.
    inversion Hd as [|? ? [Hlo Hhi] Hd']; subst.
    destruct (fire_now_timers t w (Good_not_halted _ _ G) Hlo) as [En Et].
    destruct (IH (fire t w)) as (G' & Hn' & Et').
    + now apply Good_fire.
    + exact Hs'.
    + rewrite En. rewrite Forall_forall in *. intros u Hu.
      specialize (Hall u Hu). specialize (Hd' u Hu).
      unfold due_le in Hall. lia.
    + now rewrite En.
    + cbn zeta. now rewrite Et' , Et.
Qed.

Lemma Inv_advance (dt : N) w : Inv w -> Inv (advance dt w).
Proof.
  intros [G Hf]. unfold advance.
  set (deadline := now w + dt).
  set (R := filter (ripe deadline) (timers w)).
  set (P := filter (fun t => negb (ripe deadline t)) (timers w)).
  assert (G1 : Good (set_timers P w) (sort_timers R)).
  { destruct G. constructor; cbn [set_timers uncaught scheduled timers next_id log now];
      try assumption.
    rewrite g_perm0. cbn [app]. rewrite app_assoc.
    apply Permutation_app_tail.
    rewrite <- (ripe_split deadline (timers w)). fold R P.
    rewrite sort_timers_perm. apply Permutation_app_comm. }
  destruct (Good_fire_all deadline (sort_timers R) (set_timers P w))
    as (G2 & Hn2 & Et2).
  - exact G1.
  - apply sort_timers_sorted.
  - rewrite Forall_forall. intros t Ht.
    apply (Permutation_in _ (sort_timers_perm R)) in Ht.
    apply filter_In in Ht. destruct Ht as [Ht Hr].
    rewrite Forall_forall in Hf. specialize (Hf t Ht).
    unfold ripe in Hr. apply N.leb_le in Hr. cbn. lia.
  - cbn. lia.
  - cbn zeta in G2, Hn2, Et2. rewrite (Good_not_halted _ _ G2).
    split.
    + now apply Good_set_now.
    + cbn [set_now timers now]. rewrite Et2. cbn [set_timers timers].
      rewrite Forall_forall. intros t Ht. apply filter_In in Ht.
      destruct Ht as [_ Hr]. unfold ripe in Hr.
      apply negb_true_iff, N.leb_gt in Hr. exact Hr.
Qed.

(** ** The ready event *)

Lemma dispatch_eq l w :
  halted w = false ->
  dispatch l w =
  arm_all (fresh (next_id w) (now w) (eligible (doc w))) (note ObsHandler w).
Proof.
  intros Hh. unfold dispatch, run_task, run_listener. rewrite Hh.
  destruct l. now rewrite on_ready_eq.
Qed.

Lemma Inv_dispatch l w : Inv w -> Inv (dispatch l w).
Proof.
  intros [G Hf]. rewrite (dispatch_eq l w (Good_not_halted _ _ G)).
  split.
  - apply (Good_arm_all (note ObsHandler w)). now apply Good_note_handler.
  - destruct (arm_all_fields (fresh (next_id w) (now w) (eligible (doc w)))
                             (note ObsHandler w))
      as (E1 & _ & _ & _ & _ & _ & _ & E8 & _).
    cbn zeta in E1, E8. rewrite E1, E8. cbn [note now timers].
    apply Forall_app. split; [exact Hf|].
    eapply Forall_impl; [|apply fresh_due].
    intros t [Ea Ed]. unfold due. rewrite Ea, Ed. lia.
Qed.

Lemma Inv_dispatch_all ls w :
  Inv w -> Inv (fold_left (fun w l => dispatch l w) ls w).
Proof.
  revert w. induction ls as [|l ls IH]; intros w Hw; [exact Hw|].
  cbn [fold_left]. apply IH. now apply Inv_dispatch.
Qed.

(** ** The invariant holds along every trace *)

Lemma Inv_exec ev w : Inv w -> Inv (exec ev w).
Proof.
  intros Hw. unfold exec.
  destruct (halted w); [exact Hw|].
  destruct ev as [| |dt|f].
  - destruct Hw as [G Hf]. split; [now apply Good_add_listener|exact Hf].
  - destruct (loaded w); [exact Hw|].
    apply Inv_dispatch_all. destruct Hw as [G Hf].
    split; [now apply Good_set_loaded|exact Hf].
  - now apply Inv_advance.
  - destruct Hw as [G Hf]. split; [now apply Good_set_page|exact Hf].
Qed.

Lemma Inv_run evs w : Inv w -> Inv (run evs w).
Proof.
  revert w. induction evs as [|ev evs IH]; intros w Hw; [exact Hw|].
  apply IH. now apply Inv_exec.
Qed.

Lemma Inv_page_load (t0 : N) s0 d : Inv (page_load tk t0 s0 d).
Proof.
  split; [|constructor].
  constructor; cbn; try constructor; auto.
Qed.

(** ** What stays put between ready events *)

Lemma Quiet_refl w : Quiet w w.
Proof. constructor; auto. lia. Qed.

Lemma Quiet_trans w1 w2 w3 : Quiet w1 w2 -> Quiet w2 w3 -> Quiet w1 w3.
Proof.
  intros [] []. constructor; try congruence. lia.
Qed.

Lemma fire_quiet t w : Quiet w (fire t w).
Proof.
  unfold fire. destruct (halted w); [apply Quiet_refl|].
  unfold run_task, run_callback. destruct (cb t) as [el]. rewrite dismiss_eq.
  set (w0 := note _ _).
  destruct (after_dismiss_fields el w0) as (E1 & E2 & _ & _ & E5 & E6 & _ & E8).
  cbn zeta in *. constructor; rewrite ?E1, ?E2, ?E5, ?E6, ?E8; try reflexivity.
  - rewrite handler_runs_app.
    destruct (extra_counts el (obtains el w0) 0%nat) as (_ & -> & _).
    reflexivity.
  - cbn. lia.
Qed.

Lemma fire_all_quiet batch w :
  Quiet w (fold_left (fun w t => fire t w) batch w).
Proof.
  revert w. induction batch as [|t batch IH]; intros w; [apply Quiet_refl|].
  cbn [fold_left]. eapply Quiet_trans; [apply fire_quiet|apply IH].
Qed.

Lemma advance_quiet (dt : N) w : Quiet w (advance dt w).
Proof.
  unfold advance.
  set (w1 := set_timers _ w). set (batch := sort_timers _).
  assert (Q : Quiet w (fold_left (fun w t => fire t w) batch w1)).
  { eapply Quiet_trans; [|apply fire_all_quiet].
    constructor; cbn; auto. lia. }
  destruct (halted _); [exact Q|].
  destruct Q. constructor; cbn [set_now loaded scheduled next_id log now];
    try assumption. lia.
Qed.

Lemma exec_quiet ev w :
  is_ready ev = false \/ loaded w = true -> Quiet w (exec ev w).
Proof.
  intros H. unfold exec. destruct (halted w); [apply Quiet_refl|].
  destruct ev as [| |dt|f].
  - unfold run_task, main, addEventListener. constructor; cbn; auto. lia.
  - destruct H as [H|H]; [discriminate|]. rewrite H. apply Quiet_refl.
  - apply advance_quiet.
  - constructor; cbn; auto. lia.
Qed.

Lemma run_quiet_loaded evs w : loaded w = true -> Quiet w (run evs w).
Proof.
  revert w. induction evs as [|ev evs IH]; intros w Hl; [apply Quiet_refl|].
  cbn [run fold_left].
  assert (Q : Quiet w (exec ev w)) by (apply exec_quiet; now right).
  eapply Quiet_trans; [exact Q|]. apply IH.
  now rewrite (q_loaded Q).
Qed.

Lemma run_quiet_no_ready evs w : no_ready evs = true -> Quiet w (run evs w).
Proof.
  unfold no_ready. revert w.
  induction evs as [|ev evs IH]; intros w Hn; [apply Quiet_refl|].
  cbn [existsb] in Hn. apply negb_true_iff, orb_false_iff in Hn.
  destruct Hn as [He Hn].
  cbn [run fold_left]. apply (Quiet_trans w (exec ev w)).
  - apply exec_quiet. now left.
  - apply IH. now rewrite Hn.
Qed.

Lemma fire_listeners t w : listeners (fire t w) = listeners w.
Proof.
  unfold fire. destruct (halted w); [reflexivity|].
  unfold run_task, run_callback. destruct (cb t) as [el]. rewrite dismiss_eq.
  set (w0 := note _ _).
  destruct (after_dismiss_fields el w0) as (_ & _ & E3 & _).
  cbn zeta in E3. now rewrite E3.
Qed.

Lemma fire_all_listeners batch w :
  listeners (fold_left (fun w t => fire t w) batch w) = listeners w.
Proof.
  revert w. induction batch as [|t batch IH]; intros w; [reflexivity|].
  cbn [fold_left]. now rewrite IH, fire_listeners.
Qed.

Lemma advance_listeners (dt : N) w : listeners (advance dt w) = listeners w.
Proof.
  unfold advance. destruct (halted _); cbn [set_now listeners];
    now rewrite fire_all_listeners.
Qed.

(** Each evaluation of the script adds one listener; nothing removes
    any. *)
Lemma listeners_run evs w :
  Inv w -> no_ready evs = true ->
  List.length (listeners (run evs w))
  = (List.length (listeners w) + scripts_in evs)%nat.
Proof.
  unfold no_ready, scripts_in. revert w.
  induction evs as [|ev evs IH]; intros w Hw Hn; cbn [run fold_left].
  - cbn. lia.
  - cbn [existsb] in Hn. apply negb_true_iff, orb_false_iff in Hn.
    destruct Hn as [He Hn].
    fold (run evs (exec ev w)). rewrite IH.
    + unfold exec. rewrite (Good_not_halted _ _ (proj1 Hw)).
      destruct ev as [| |dt|f]; cbn [filter is_script List.length];
        try discriminate.
      * unfold run_task, main, addEventListener. cbn.
        rewrite length_app. cbn. lia.
      * rewrite advance_listeners. lia.
      * cbn. lia.
    + now apply Inv_exec.
    + now rewrite Hn.
Qed.

(** Nothing ever leaves the history of armed timers. *)
Lemma dispatch_grows l w :
  exists more, scheduled (dispatch l w) = scheduled w ++ more.
Proof.
  unfold dispatch. destruct (halted w).
  - exists []. now rewrite app_nil_r.
  - unfold run_task, run_listener. destruct l. rewrite on_ready_eq.
    set (ts := fresh _ _ _).
    destruct (arm_all_fields ts (note ObsHandler w))
      as (_ & _ & _ & _ & _ & _ & _ & _ & E & _).
    exists ts. now rewrite E.
Qed.

Lemma dispatch_all_grows ls w :
  exists more,
    scheduled (fold_left (fun w l => dispatch l w) ls w) = scheduled w ++ more.
Proof.
  revert w. induction ls as [|l ls IH]; intros w; cbn [fold_left].
  - exists []. now rewrite app_nil_r.
  - destruct (IH (dispatch l w)) as (m2 & E2).
    destruct (dispatch_grows l w) as (m1 & E1).
    exists (m1 ++ m2). now rewrite E2, E1, app_assoc.
Qed.

Lemma exec_grows ev w : exists more, scheduled (exec ev w) = scheduled w ++ more.
Proof.
  destruct (is_ready ev) eqn:Er.
  - destruct ev; try discriminate. unfold exec.
    destruct (halted w); [exists []; now rewrite app_nil_r|].
    destruct (loaded w); [exists []; now rewrite app_nil_r|].
    apply (dispatch_all_grows (listeners w) (set_loaded w)).
  - exists []. rewrite app_nil_r.
    apply (q_scheduled (exec_quiet ev w (or_introl Er))).
Qed.

Lemma run_grows evs w : exists more, scheduled (run evs w) = scheduled w ++ more.
Proof.
  revert w. induction evs as [|ev evs IH]; intros w; cbn [run fold_left].
  - exists []. now rewrite app_nil_r.
  - destruct (IH (exec ev w)) as (m2 & E2).
    destruct (exec_grows ev w) as (m1 & E1).
    exists (m1 ++ m2). fold (run evs (exec ev w)).
    now rewrite E2, E1, app_assoc.
Qed.

(** ** Pending or fired, never both *)

Lemma fired_past (t_now : N) (l : Log) t :
  Forall (obs_ok t_now) l -> In t (fired l) -> due t <= t_now.
Proof.
  induction 1 as [|o l Ho _ IH]; cbn [fired]; [intros []|].
  destruct o; cbn [In]; auto.
  intros [->|Hin]; auto. cbn in Ho. lia.
Qed.

Lemma fire_times_none k (l : Log) :
  (forall u, In u (fired l) -> tid u <> k) -> fire_times k l = [].
Proof.
  induction l as [|o l IH]; intros H; [reflexivity|].
  destruct o; cbn [fire_times fired] in *; auto.
  destruct (Nat.eqb_spec (tid t) k) as [E|_].
  - exfalso. apply (H t); [now left|exact E].
  - apply IH. intros u Hu. apply H. now right.
Qed.

Lemma fire_times_one (t_now : N) (l : Log) t :
  Forall (obs_ok t_now) l -> NoDup (map tid (fired l)) -> In t (fired l) ->
  fire_times (tid t) l = [due t].
Proof.
  induction 1 as [|o l Ho _ IH]; cbn [fired]; [intros _ []|].
  destruct o as [|u a| |]; cbn [fire_times]; auto.
  cbn [map]. intros Hnd Hin. inversion Hnd as [|? ? Hni Hnd']; subst.
  destruct Hin as [->|Hin].
  - rewrite Nat.eqb_refl. cbn in Ho. destruct Ho as [-> _].
    f_equal. apply fire_times_none. intros v Hv E. apply Hni.
    rewrite <- E. now apply in_map.
  - destruct (Nat.eqb_spec (tid u) (tid t)) as [E|_]; [|now apply IH].
    exfalso. apply Hni. rewrite E. now apply in_map.
Qed.

(** A timer that was armed is pending until the clock reaches its due
    time, and from then on it has fired exactly once, at its due time. *)
Lemma settled w t :
  Inv w -> In t (scheduled w) ->
  (now w < due t ->
   In t (timers w) /\ fire_times (tid t) (log w) = []) /\
  (due t <= now w ->
   ~ In t (timers w) /\ In t (fired (log w)) /\
   fire_times (tid t) (log w) = [due t]).
Proof.
  intros [G Hf] Hin.
  pose proof (g_perm G) as Hp. cbn [app] in Hp.
  pose proof (g_nodup G) as Hnd.
  rewrite (Permutation_map tid Hp) in Hnd.
  apply (Permutation_in _ Hp), in_app_or in Hin.
  rewrite Forall_forall in Hf.
  split; intros Hcmp.
  - destruct Hin as [Hin|Hin].
    + split; [exact Hin|]. apply fire_times_none. intros u Hu E.
      now apply (NoDup_map_app_sep tid _ _ t u Hnd Hin Hu).
    + pose proof (fired_past _ _ _ (g_log G) Hin). lia.
  - destruct Hin as [Hin|Hin].
    + specialize (Hf _ Hin). lia.
    + split; [|split; [exact Hin|]].
      * intros Hin'. specialize (Hf _ Hin'). lia.
      * apply (fire_times_one (now w)); [exact (g_log G)| |exact Hin].
        rewrite map_app in Hnd. now apply NoDup_app_remove_l in Hnd.
Qed.

Lemma Permutation_filter_length {A} (f : A -> bool) (l l' : list A) :
  Permutation l l' -> List.length (filter f l) = List.length (filter f l').
Proof.
  induction 1 as [|a l l' _ IH|a b l|l1 l2 l3 _ IH1 _ IH2]; cbn [filter].
  - reflexivity.
  - destruct (f a); cbn; now rewrite IH.
  - destruct (f a), (f b); reflexivity.
  - now rewrite IH1.
Qed.

(** Calls on a node are counted by the fired timers that close over it. *)
Lemma calls_settled w n :
  Inv w -> (forall t, In t (scheduled w) -> due t <= now w) ->
  calls_get n (log w) = List.length (aimed_at n (scheduled w)).
Proof.
  intros [G Hf] Hall.
  pose proof (g_perm G) as Hp. cbn [app] in Hp.
  assert (Et : timers w = []).
  { destruct (timers w) as [|t ts] eqn:E; [reflexivity|].
    exfalso. inversion Hf as [|? ? Hlt _]; subst.
    assert (Hin : In t (scheduled w)).
    { apply (Permutation_in _ (Permutation_sym Hp)). now left. }
    specialize (Hall t Hin). lia. }
  rewrite Et in Hp. cbn [app] in Hp.
  rewrite (g_gets G). unfold aimed_at. symmetry.
  now apply Permutation_filter_length.
Qed.

Lemma calls_none w n :
  Inv w -> aimed_at n (scheduled w) = [] ->
  calls_get n (log w) = 0%nat /\ calls_close n (log w) = 0%nat.
Proof.
  intros [G _] Hn.
  assert (E : calls_get n (log w) = 0%nat).
  { rewrite (g_gets G).
    destruct (aimed_at n (fired (log w))) as [|t ts] eqn:Ea; [reflexivity|].
    exfalso.
    assert (Hin : In t (aimed_at n (fired (log w)))) by (rewrite Ea; now left).
    unfold aimed_at in Hin. apply filter_In in Hin. destruct Hin as [Hin Ht].
    assert (Hs : In t (aimed_at n (scheduled w))).
    { unfold aimed_at. apply filter_In. split; [|exact Ht].
      apply (Permutation_in _ (Permutation_sym (g_perm G))).
      apply in_or_app. right. now apply in_or_app; right. }
    now rewrite Hn in Hs. }
  split; [exact E|]. pose proof (g_closes G n). lia.
Qed.

(** ** The page seen by the listener *)

Lemma contains_In tok (l : list string) : contains tok l = true <-> In tok l.
Proof.
  unfold contains. rewrite existsb_exists. split.
  - intros (x & Hx & E). apply String.eqb_eq in E. now subst.
  - intros H. exists tok. split; [exact H|apply String.eqb_refl].
Qed.

Lemma contains_not_In tok (l : list string) :
  contains tok l = false <-> ~ In tok l.
Proof.
  rewrite <- contains_In. destruct (contains tok l); split; congruence.
Qed.

Lemma distinct_nodes_NoDup d : distinct_nodes d = true -> NoDup (map node d).
Proof.
  induction d as [|e d IH]; cbn [distinct_nodes map]; [constructor|].
  intros H. apply andb_true_iff in H. destruct H as [Hn Hd].
  constructor; [|now apply IH].
  intros Hin. apply in_map_iff in Hin. destruct Hin as (e' & E & He').
  apply negb_true_iff in Hn.
  assert (Hx : existsb (fun e' => Nat.eqb (node e') (node e)) d = true).
  { apply existsb_exists. exists e'. split; [exact He'|].
    now apply Nat.eqb_eq. }
  congruence.
Qed.

Lemma lookup_distinct d (e : Element) :
  distinct_nodes d = true -> In e d -> lookup (node e) d = Some e.
Proof.
  unfold lookup.
  induction d as [|x d IH]; cbn [distinct_nodes In find]; [tauto|].
  intros H Hin. apply andb_true_iff in H. destruct H as [Hn Hd].
  destruct Hin as [->|Hin]; [now rewrite Nat.eqb_refl|].
  destruct (Nat.eqb_spec (node x) (node e)) as [E|_]; [|now apply IH].
  exfalso. apply negb_true_iff in Hn.
  assert (Hx : existsb (fun e' => Nat.eqb (node e') (node x)) d = true).
  { apply existsb_exists. exists e. split; [exact Hin|].
    now apply Nat.eqb_eq. }
  congruence.
Qed.

Lemma danger_distinct d (e : Element) :
  distinct_nodes d = true -> In e d ->
  danger d (node e) = contains "alert-danger" (classList e).
Proof. intros Hd Hin. unfold danger. now rewrite lookup_distinct. Qed.

Lemma eligible_iff d (e : Element) :
  distinct_nodes d = true -> In e d ->
  (In (node e) (eligible d) <->
   matches (ClassSel "alert") e = true /\
   contains "alert-danger" (classList e) = false).
Proof.
  intros Hd Hin. unfold eligible. rewrite filter_In, in_map_iff.
  rewrite (danger_distinct d e Hd Hin), negb_true_iff. split.
  - intros [(e' & E & He') Hc]. split; [|exact Hc].
    apply filter_In in He'. destruct He' as [He' Hm].
    assert (e' = e) as <-; [|exact Hm].
    pose proof (lookup_distinct d e' Hd He') as L1.
    pose proof (lookup_distinct d e Hd Hin) as L2.
    rewrite E in L1. congruence.
  - intros [Hm Hc]. split; [|exact Hc].
    exists e. split; [reflexivity|]. apply filter_In. now split.
Qed.

Lemma eligible_in_page d n : In n (eligible d) -> In n (map node d).
Proof.
  unfold eligible. rewrite filter_In, !in_map_iff.
  intros [(e & E & He) _]. exists e. split; [exact E|].
  apply filter_In in He. tauto.
Qed.

(** Selecting elements of a page keeps its nodes distinct. *)
Lemma selected_nodes_NoDup (sel : Element -> bool) d :
  NoDup (map node d) -> NoDup (map node (filter sel d)).
Proof.
  induction d as [|e d IH]; cbn [map filter]; intros Hnd; [exact Hnd|].
  inversion Hnd as [|? ? Hfresh Hrest]; subst.
  destruct (sel e); [|now apply IH].
  cbn [map]. constructor; [|now apply IH].
  rewrite in_map_iff. intros (x & E & Hx). apply filter_In in Hx.
  apply Hfresh. rewrite <- E. apply in_map. tauto.
Qed.

Lemma eligible_NoDup d : distinct_nodes d = true -> NoDup (eligible d).
Proof.
  intros Hd. unfold eligible. apply NoDup_filter, selected_nodes_NoDup.
  now apply distinct_nodes_NoDup.
Qed.

(** ** The timers of one run of the listener *)

Lemma fresh_target k (t0 : N) els t :
  In t (fresh k t0 els) ->
  In (target t) els /\ set_at t = t0 /\ delay t = 4000.
Proof.
  revert k. induction els as [|el els IH]; intros k; cbn [fresh In]; [tauto|].
  intros [<-|Hin]; [cbn; auto|].
  destruct (IH _ Hin) as (H1 & H2 & H3). auto.
Qed.

Lemma aimed_at_fresh_none k (t0 : N) els n :
  ~ In n els -> aimed_at n (fresh k t0 els) = [].
Proof.
  intros Hn. unfold aimed_at.
  destruct (filter _ _) as [|t ts] eqn:E; [reflexivity|]. exfalso.
  assert (Hin : In t (t :: ts)) by now left.
  rewrite <- E in Hin. apply filter_In in Hin. destruct Hin as [Hin Ht].
  apply fresh_target in Hin. apply Nat.eqb_eq in Ht.
  destruct Hin as [Hin _]. now rewrite Ht in Hin.
Qed.

Lemma aimed_at_fresh_one k (t0 : N) els n :
  NoDup els -> In n els ->
  exists j, aimed_at n (fresh k t0 els) = [mkTimer j t0 4000 (DismissCb n)].
Proof.
  revert k. induction els as [|el els IH]; intros k Hnd Hin; [destruct Hin|].
  inversion Hnd as [|? ? Hni Hnd']; subst.
  cbn [fresh]. unfold aimed_at. cbn [filter target cb].
  fold (aimed_at n (fresh (S k) t0 els)).
  destruct (Nat.eqb_spec el n) as [->|Hne].
  - exists k. now rewrite aimed_at_fresh_none.
  - destruct Hin as [E|Hin]; [contradiction|]. now apply IH.
Qed.

(** ** The ready event *)

Lemma dispatch_fields l w :
  halted w = false ->
  let w' := dispatch l w in
  doc w' = doc w /\ now w' = now w /\ loaded w' = loaded w /\
  scheduled w' = scheduled w ++ fresh (next_id w) (now w) (eligible (doc w)) /\
  handler_runs (log w') = S (handler_runs (log w)).
Proof.
  intros Hh. cbn zeta. rewrite (dispatch_eq l w Hh).
  destruct (arm_all_fields (fresh (next_id w) (now w) (eligible (doc w)))
                           (note ObsHandler w))
    as (E1 & E2 & _ & _ & E5 & E6 & _ & _ & E9 & _).
  cbn zeta in *. rewrite E1, E2, E5, E6, E9. repeat split.
Qed.

(** With one listener registered, the ready event is one run of it. *)
Lemma ready_once l w :
  Inv w -> loaded w = false -> listeners w = [l] ->
  let w' := exec EvReady w in
  Inv w' /\ loaded w' = true /\ now w' = now w /\
  scheduled w' = scheduled w ++ fresh (next_id w) (now w) (eligible (doc w)) /\
  handler_runs (log w') = S (handler_runs (log w)).
Proof.
  intros Hw Hl Hls. cbn zeta. split; [now apply Inv_exec|].
  unfold exec. rewrite (Good_not_halted _ _ (proj1 Hw)), Hl, Hls.
  cbn [fold_left].
  destruct (dispatch_fields l (set_loaded w)) as (_ & E2 & E3 & E4 & E5).
  { apply (Good_not_halted _ _ (proj1 Hw)). }
  rewrite E2, E3, E4, E5. repeat split.
Qed.

(** Whatever the number of listeners, the ready event arms timers only
    for nodes that are eligible in the page as it is then. *)
Lemma dispatch_all_targets (d0 : Doc) ls :
  forall w,
    Inv w -> doc w = d0 ->
    let w' := fold_left (fun w l => dispatch l w) ls w in
    loaded w' = loaded w /\
    forall t, In t (scheduled w') ->
              In t (scheduled w) \/ In (target t) (eligible d0).
Proof.
  induction ls as [|l ls IH]; intros w Hw Hd; cbn [fold_left]; [auto|].
  destruct (dispatch_fields l w (Good_not_halted _ _ (proj1 Hw)))
    as (E1 & _ & E3 & E4 & _).
  destruct (IH (dispatch l w)) as (El & Ht).
  - now apply Inv_dispatch.
  - now rewrite E1.
  - cbn zeta. split; [congruence|].
    intros t Hin. destruct (Ht t Hin) as [Hs|He]; [|now right].
    rewrite E4 in Hs. apply in_app_or in Hs.
    destruct Hs as [Hs|Hs]; [now left|right].
    apply fresh_target in Hs. now rewrite <- Hd.
Qed.

Lemma ready_targets w t :
  Inv w -> In t (scheduled (exec EvReady w)) ->
  In t (scheduled w) \/ In (target t) (eligible (doc w)).
Proof.
  intros Hw. unfold exec.
  destruct (halted w); [now left|].
  destruct (loaded w); [now left|].
  destruct (dispatch_all_targets (doc w) (listeners w) (set_loaded w))
    as (_ & Ht); auto.
  destruct Hw as [G Hf]. split; [now apply Good_set_loaded|exact Hf].
Qed.

Lemma ready_loaded w : Inv w -> loaded (exec EvReady w) = true.
Proof.
  intros Hw. unfold exec. rewrite (Good_not_halted _ _ (proj1 Hw)).
  destruct (loaded w) eqn:El; [exact El|].
  destruct (dispatch_all_targets (doc w) (listeners w) (set_loaded w))
    as (E & _); auto.
  destruct Hw as [G Hf]. split; [now apply Good_set_loaded|exact Hf].
Qed.

(** Up to the ready event nothing is armed and no listener has run. *)
Lemma before_ready pre (t0 : N) s0 d :
  no_ready pre = true ->
  let w := run pre (page_load tk t0 s0 d) in
  Inv w /\ loaded w = false /\ scheduled w = [] /\ next_id w = 0%nat /\
  handler_runs (log w) = 0%nat /\ t0 <= now w /\
  List.length (listeners w) = scripts_in pre.
Proof.
  intros Hn. cbn zeta.
  pose proof (run_quiet_no_ready pre (page_load tk t0 s0 d) Hn) as Q.
  split; [apply Inv_run, Inv_page_load|].
  rewrite (q_loaded Q), (q_scheduled Q), (q_next Q), (q_handlers Q).
  rewrite (listeners_run pre _ (Inv_page_load t0 s0 d) Hn).
  repeat split. exact (q_now Q).
Qed.

(** ** Consequences used by several properties *)

Lemma aimed_at_none n (l : list Timer) :
  (forall t, In t l -> target t <> n) -> aimed_at n l = [].
Proof.
  intros H. unfold aimed_at.
  destruct (filter _ l) as [|t ts] eqn:E; [reflexivity|]. exfalso.
  assert (Hin : In t (t :: ts)) by now left.
  rewrite <- E in Hin. apply filter_In in Hin. destruct Hin as [Hin Ht].
  apply Nat.eqb_eq in Ht. now apply (H t).
Qed.

Lemma aimed_at_In n (l : list Timer) t :
  In t (aimed_at n l) <-> In t l /\ target t = n.
Proof. unfold aimed_at. now rewrite filter_In, Nat.eqb_eq. Qed.

(** A node no armed timer closes over is never called on. *)
Lemma never_aimed w n :
  Inv w -> (forall t, In t (scheduled w) -> target t <> n) ->
  aimed_at n (scheduled w) = [] /\ aimed_at n (timers w) = [] /\
  calls_get n (log w) = 0%nat /\ calls_close n (log w) = 0%nat.
Proof.
  intros Hw H.
  assert (E : aimed_at n (scheduled w) = []) by now apply aimed_at_none.
  split; [exact E|]. split; [|now apply calls_none].
  apply aimed_at_none. intros t Hin. apply H.
  apply (Permutation_in _ (Permutation_sym (g_perm (proj1 Hw)))).
  apply in_or_app. now left.
Qed.

(** After the ready event, every timer there will ever be closes over a
    node that was eligible in the page as it stood at that event. *)
Lemma targets_after_ready pre post (t0 : N) s0 d :
  no_ready pre = true ->
  let wr := run pre (page_load tk t0 s0 d) in
  let w' := run post (exec EvReady wr) in
  Inv w' /\ scheduled w' = scheduled (exec EvReady wr) /\
  next_id w' = next_id (exec EvReady wr) /\
  forall t, In t (scheduled w') -> In (target t) (eligible (doc wr)).
Proof.
  intros Hn wr w'.
  destruct (before_ready pre t0 s0 d Hn) as (Hw & _ & Hs & _).
  fold wr in Hw, Hs.
  pose proof (run_quiet_loaded post _ (ready_loaded wr Hw)) as Q.
  fold w' in Q.
  split; [apply Inv_run; now apply Inv_exec|].
  split; [exact (q_scheduled Q)|]. split; [exact (q_next Q)|].
  intros t Hin. rewrite (q_scheduled Q) in Hin.
  destruct (ready_targets wr t Hw Hin) as [H|H]; [|exact H].
  rewrite Hs in H. destruct H.
Qed.

(** The page after a load in which the script was evaluated once. *)
Lemma after_single_load pre post (t0 : N) s0 d :
  no_ready pre = true -> scripts_in pre = 1%nat ->
  let wr := run pre (page_load tk t0 s0 d) in
  let w' := run post (exec EvReady wr) in
  Inv w' /\ now wr <= now w' /\ handler_runs (log w') = 1%nat /\
  scheduled w' = fresh 0 (now wr) (eligible (doc wr)).
Proof.
  intros Hn Hs wr w'.
  destruct (before_ready pre t0 s0 d Hn) as (Hw & Hl & Hsch & Hid & Hh & _ & Hls).
  fold wr in Hw, Hl, Hsch, Hid, Hh, Hls. rewrite Hs in Hls.
  destruct (listeners wr) as [|l [|l' ls]] eqn:El; try discriminate.
  destruct (ready_once l wr Hw Hl El) as (Hw1 & Hl1 & Hn1 & Hs1 & Hh1).
  pose proof (run_quiet_loaded post _ Hl1) as Q. fold w' in Q.
  split; [now apply Inv_run|].
  rewrite (q_handlers Q), (q_scheduled Q), Hh1, Hs1, Hh, Hsch, Hid.
  split; [|split; reflexivity].
  rewrite <- Hn1. exact (q_now Q).
Qed.

(** ** The properties *)

(** C1. For every element that matches the alert selector and does not
    carry the danger marker when the ready listener runs, that run of the
    listener arms exactly one timer closing over the element, with delay
    4000 and armed at the clock value of that moment; whatever happens
    next, the timer is still pending while the clock is below that value
    plus 4000, and once the clock has reached it the callback has fired
    exactly once, at exactly that value plus 4000. *)
Theorem eligible_alert_gets_one_timer
  (t0 : N) (s0 : TK tk) d (evs : list (Event tk)) (e : Element) :
  let w := run evs (page_load tk t0 s0 d) in
  distinct_nodes (doc w) = true ->
  In e (doc w) ->
  matches (ClassSel "alert") e = true ->
  contains "alert-danger" (classList e) = false ->
  exists t,
    aimed_at (node e) (armed_by_ready w) = [t] /\
    set_at t = now w /\ delay t = 4000 /\
    forall post,
      let w' := run post (dispatch AutoDismiss w) in
      (now w' < now w + 4000 ->
       In t (timers w') /\ fire_times (tid t) (log w') = []) /\
      (now w + 4000 <= now w' ->
       ~ In t (timers w') /\ fire_times (tid t) (log w') = [now w + 4000]).
Proof.
  intros w Hd Hin Hm Hc.
  assert (Hw : Inv w) by apply Inv_run, Inv_page_load.
  assert (Hel : In (node e) (eligible (doc w)))
    by (apply eligible_iff; auto).
  destruct (aimed_at_fresh_one (next_id w) (now w) _ _
              (eligible_NoDup _ Hd) Hel) as (j & Ej).
  set (t := mkTimer j (now w) 4000 (DismissCb (node e))) in *.
  exists t. rewrite armed_by_ready_eq.
  split; [exact Ej|]. split; [reflexivity|]. split; [reflexivity|].
  intros post w'.
  assert (Hw' : Inv w') by (apply Inv_run; now apply Inv_dispatch).
  assert (Ht : In t (scheduled w')).
  { destruct (run_grows post (dispatch AutoDismiss w)) as (more & E).
    fold w' in E. rewrite E. apply in_or_app. left.
    destruct (dispatch_fields AutoDismiss w (Good_not_halted _ _ (proj1 Hw)))
      as (_ & _ & _ & E4 & _).
    rewrite E4. apply in_or_app. right.
    apply (aimed_at_In (node e)). rewrite Ej. now left. }
  destruct (settled w' t Hw' Ht) as [A B].
  change (due t) with (now w + 4000) in A, B.
  split; [exact A|]. intros Hle. destruct (B Hle) as (B1 & _ & B3). now split.
Qed.

(** C2. For every alert element that carries the danger marker when the
    ready event is dispatched, no timer closing over it is armed, before
    the event or at any time after it, and neither the controller accessor
    nor close is ever called on it by a timer callback. *)
Theorem danger_alert_never_scheduled
  (t0 : N) (s0 : TK tk) d (pre post : list (Event tk)) (e : Element) :
  no_ready pre = true ->
  let wr := run pre (page_load tk t0 s0 d) in
  distinct_nodes (doc wr) = true ->
  In e (doc wr) ->
  matches (ClassSel "alert") e = true ->
  contains "alert-danger" (classList e) = true ->
  let w' := run post (exec EvReady wr) in
  scheduled wr = [] /\
  aimed_at (node e) (scheduled w') = [] /\
  aimed_at (node e) (timers w') = [] /\
  calls_get (node e) (log w') = 0%nat /\
  calls_close (node e) (log w') = 0%nat.
Proof.
  intros Hn wr Hd Hin Hm Hc w'.
  destruct (before_ready pre t0 s0 d Hn) as (_ & _ & Hs & _).
  split; [exact Hs|].
  destruct (targets_after_ready pre post t0 s0 d Hn) as (Hw' & _ & _ & Ht).
  apply never_aimed; [exact Hw'|].
  intros t Hin' E. specialize (Ht t Hin'). fold wr in Ht. rewrite E in Ht.
  apply (eligible_iff _ e Hd Hin) in Ht. destruct Ht as [_ Ht]. congruence.
Qed.

(** C3. Whatever the toolkit does, and in particular when obtaining the
    controller or closing it throws, the timer callback completes normally
    and leaves the page's error record as it was; so along every trace of
    a page load no error ever escapes a task, the page never halts, and
    every timer whose due time the clock has reached has fired exactly
    once, at its due time. *)
Theorem close_failure_is_contained
  (t0 : N) (s0 : TK tk) d (evs : list (Event tk)) :
  (forall c w0,
      fst (run_callback c w0) = Normal tt /\
      uncaught (snd (run_callback c w0)) = uncaught w0 /\
      timers (snd (run_callback c w0)) = timers w0 /\
      uncaught (run_task (run_callback c) w0) = uncaught w0) /\
  let w := run evs (page_load tk t0 s0 d) in
  uncaught w = [] /\ halted w = false /\
  forall t, In t (scheduled w) -> due t <= now w ->
            In t (fired (log w)) /\ fire_times (tid t) (log w) = [due t] /\
            (1 <= calls_get (target t) (log w))%nat.
Proof.
  split.
  - intros [el] w0. unfold run_task, run_callback. rewrite dismiss_eq.
    destruct (after_dismiss_fields el w0) as (_ & _ & _ & E4 & _ & _ & E7 & _).
    cbn [fst snd]. auto.
  - intros w.
    assert (Hw : Inv w) by apply Inv_run, Inv_page_load.
    split; [exact (g_uncaught (proj1 Hw))|].
    split; [exact (Good_not_halted _ _ (proj1 Hw))|].
    intros t Hin Hle.
    destruct (settled w t Hw Hin) as [_ B].
    destruct (B Hle) as (_ & B2 & B3).
    split; [exact B2|]. split; [exact B3|].
    rewrite (g_gets (proj1 Hw)).
    assert (Ha : In t (aimed_at (target t) (fired (log w))))
      by now apply aimed_at_In.
    destruct (aimed_at (target t) (fired (log w))); [destruct Ha|cbn; lia].
Qed.

(** C4. A node that is not in the page when the ready event is dispatched
    (an alert inserted later) is never aimed at by a timer and never
    receives a call from a timer callback; after the ready event nothing
    further is armed, whatever is inserted into the page. *)
Theorem late_alert_never_scheduled
  (t0 : N) (s0 : TK tk) d (pre post : list (Event tk)) (n : NodeId) :
  no_ready pre = true ->
  let wr := run pre (page_load tk t0 s0 d) in
  in_page n (doc wr) = false ->
  let w' := run post (exec EvReady wr) in
  scheduled w' = scheduled (exec EvReady wr) /\
  next_id w' = next_id (exec EvReady wr) /\
  aimed_at n (scheduled w') = [] /\
  aimed_at n (timers w') = [] /\
  calls_get n (log w') = 0%nat /\
  calls_close n (log w') = 0%nat.
Proof.
  intros Hn wr Hp w'.
  destruct (targets_after_ready pre post t0 s0 d Hn) as (Hw' & Es & Ei & Ht).
  split; [exact Es|]. split; [exact Ei|].
  apply never_aimed; [exact Hw'|].
  intros t Hin E. specialize (Ht t Hin). fold wr in Ht. rewrite E in Ht.
  apply eligible_in_page, in_map_iff in Ht. destruct Ht as (e & Ee & He).
  unfold in_page in Hp.
  assert (Hx : existsb (fun e => Nat.eqb (node e) n) (doc wr) = true).
  { apply existsb_exists. exists e. split; [exact He|now apply Nat.eqb_eq]. }
  congruence.
Qed.

(** Once the delay has run out after a single load, the number of calls a
    node has received is decided by the marker it had at the ready event. *)
Lemma calls_after_delay
  (t0 : N) (s0 : TK tk) d (pre post : list (Event tk)) (e : Element) :
  no_ready pre = true -> scripts_in pre = 1%nat ->
  let wr := run pre (page_load tk t0 s0 d) in
  distinct_nodes (doc wr) = true -> In e (doc wr) ->
  matches (ClassSel "alert") e = true ->
  let w' := run post (exec EvReady wr) in
  now wr + 4000 <= now w' ->
  Inv w' /\
  calls_get (node e) (log w')
  = (if contains "alert-danger" (classList e) then 0 else 1)%nat.
Proof.
  intros Hn Hs wr Hd Hin Hm w' Hle.
  destruct (after_single_load pre post t0 s0 d Hn Hs) as (Hw' & _ & _ & Es).
  fold wr w' in Hw', Es. split; [exact Hw'|].
  rewrite (calls_settled w' (node e) Hw').
  - rewrite Es.
    destruct (contains "alert-danger" (classList e)) eqn:Ec.
    + rewrite aimed_at_fresh_none; [reflexivity|].
      intros Hel. apply (eligible_iff _ e Hd Hin) in Hel.
      destruct Hel; congruence.
    + destruct (aimed_at_fresh_one 0 (now wr) (eligible (doc wr)) (node e))
        as (j & ->); [now apply eligible_NoDup| |reflexivity].
      apply eligible_iff; auto.
  - intros t Ht. rewrite Es in Ht. apply fresh_target in Ht.
    destruct Ht as (_ & Ea & Ed). unfold due. rewrite Ea, Ed. exact Hle.
Qed.

(** C5. In a page whose alert elements are exactly A, B and C, with B the
    only one carrying the danger marker, loaded with the script evaluated
    once: once the clock has moved 4000 past the ready event, the deferred
    close action has run exactly once on A, exactly once on C and never on
    B, each run asking the toolkit once for the controller of its element;
    B has received no close call, and with a toolkit that hands out
    controllers A and C have each received exactly one. *)
Theorem three_alert_scenario
  (t0 : N) (s0 : TK tk) d (pre post : list (Event tk)) (a b c : Element) :
  no_ready pre = true -> scripts_in pre = 1%nat ->
  let wr := run pre (page_load tk t0 s0 d) in
  distinct_nodes (doc wr) = true ->
  Permutation (filter (matches (ClassSel "alert")) (doc wr)) [a; b; c] ->
  contains "alert-danger" (classList a) = false ->
  contains "alert-danger" (classList b) = true ->
  contains "alert-danger" (classList c) = false ->
  let w' := run post (exec EvReady wr) in
  now wr + 4000 <= now w' ->
  (List.length (aimed_at (node a) (fired (log w'))) = 1%nat /\
   List.length (aimed_at (node b) (fired (log w'))) = 0%nat /\
   List.length (aimed_at (node c) (fired (log w'))) = 1%nat) /\
  (calls_get (node a) (log w') = 1%nat /\
   calls_get (node b) (log w') = 0%nat /\
   calls_get (node c) (log w') = 1%nat) /\
  calls_close (node b) (log w') = 0%nat /\
  (accessor_total tk ->
   calls_close (node a) (log w') = 1%nat /\
   calls_close (node c) (log w') = 1%nat).
Proof.
  intros Hn Hs wr Hd Hp Ha Hb Hc w' Hle.
  assert (Hmem : forall x, In x [a; b; c] ->
                           In x (doc wr) /\ matches (ClassSel "alert") x = true).
  { intros x Hx. apply (Permutation_in _ (Permutation_sym Hp)) in Hx.
    now apply filter_In in Hx. }
  assert (Hcalls : forall x, In x [a; b; c] ->
            Inv w' /\
            calls_get (node x) (log w')
            = (if contains "alert-danger" (classList x) then 0 else 1)%nat).
  { intros x Hx. destruct (Hmem x Hx) as [Hin Hm].
    exact (calls_after_delay t0 s0 d pre post x Hn Hs Hd Hin Hm Hle). }
  destruct (Hcalls a) as (Hw' & Ea); [cbn; auto|].
  destruct (Hcalls b) as (_ & Eb); [cbn; auto|].
  destruct (Hcalls c) as (_ & Ec); [cbn; auto|].
  rewrite Ha in Ea. rewrite Hb in Eb. rewrite Hc in Ec.
  rewrite <- !(g_gets (proj1 Hw')).
  split; [auto|]. split; [auto|].
  split.
  - pose proof (g_closes (proj1 Hw') (node b)). lia.
  - intros Htk. rewrite !(g_total (proj1 Hw') Htk). auto.
Qed.

(** C6. Eligibility is read once, when the ready event is dispatched: for
    an alert element of the page at that moment, and whatever other page
    logic does afterwards (re-marking the element as danger or clearing
    the marker before the delay runs out included), once the clock has
    moved 4000 past the ready event the timer callback has fired on it
    once if it had no danger marker at the ready event and never if it had
    one; the calls to the accessor, and to close when the toolkit hands
    out controllers, follow the same count. *)
Theorem eligibility_is_read_at_ready
  (t0 : N) (s0 : TK tk) d (pre post : list (Event tk)) (e : Element) :
  no_ready pre = true -> scripts_in pre = 1%nat ->
  let wr := run pre (page_load tk t0 s0 d) in
  distinct_nodes (doc wr) = true -> In e (doc wr) ->
  matches (ClassSel "alert") e = true ->
  let w' := run post (exec EvReady wr) in
  now wr + 4000 <= now w' ->
  let k := (if contains "alert-danger" (classList e) then 0 else 1)%nat in
  List.length (aimed_at (node e) (fired (log w'))) = k /\
  calls_get (node e) (log w') = k /\
  (accessor_total tk -> calls_close (node e) (log w') = k).
Proof.
  intros Hn Hs wr Hd Hin Hm w' Hle k.
  destruct (calls_after_delay t0 s0 d pre post e Hn Hs Hd Hin Hm Hle)
    as (Hw' & E).
  fold w' k in Hw', E.
  split; [now rewrite <- (g_gets (proj1 Hw'))|].
  split; [exact E|].
  intros Htk. now rewrite (g_total (proj1 Hw') Htk).
Qed.

(** C7. A timer that is pending stays pending, whatever happens on the
    page (the element being dismissed by hand or removed included), until
    the clock reaches its due time; from then on its callback has run
    exactly once, at the due time, and has called the accessor on its
    element; no error escapes at any point. *)
Theorem armed_timer_cannot_be_aborted
  (t0 : N) (s0 : TK tk) d (evs post : list (Event tk)) (t : Timer) :
  let w := run evs (page_load tk t0 s0 d) in
  In t (timers w) ->
  let w' := run post w in
  uncaught w' = [] /\
  (now w' < due t -> In t (timers w')) /\
  (due t <= now w' ->
   ~ In t (timers w') /\ fire_times (tid t) (log w') = [due t] /\
   (1 <= calls_get (target t) (log w'))%nat).
Proof.
  intros w Hin w'.
  assert (Hw : Inv w) by apply Inv_run, Inv_page_load.
  assert (Hw' : Inv w') by now apply Inv_run.
  assert (Hs : In t (scheduled w')).
  { destruct (run_grows post w) as (more & E). fold w' in E. rewrite E.
    apply in_or_app. left.
    apply (Permutation_in _ (Permutation_sym (g_perm (proj1 Hw)))).
    apply in_or_app. now left. }
  destruct (settled w' t Hw' Hs) as [A B].
  split; [exact (g_uncaught (proj1 Hw'))|].
  split; [intros Hlt; now destruct (A Hlt)|].
  intros Hle. destruct (B Hle) as (B1 & B2 & B3).
  split; [exact B1|]. split; [exact B3|].
  rewrite (g_gets (proj1 Hw')).
  assert (Ha : In t (aimed_at (target t) (fired (log w'))))
    by now apply aimed_at_In.
  destruct (aimed_at (target t) (fired (log w'))); [destruct Ha|cbn; lia].
Qed.

(** C8. In a page load in which the script is evaluated once before the
    ready event, the listener has not run and nothing is armed up to the
    ready event; the ready event runs the listener once; afterwards the
    listener never runs again and nothing further is armed. *)
Theorem listener_runs_once_per_load
  (t0 : N) (s0 : TK tk) d (pre post : list (Event tk)) :
  no_ready pre = true -> scripts_in pre = 1%nat ->
  let wr := run pre (page_load tk t0 s0 d) in
  let w1 := exec EvReady wr in
  let w' := run post w1 in
  handler_runs (log wr) = 0%nat /\ scheduled wr = [] /\ timers wr = [] /\
  handler_runs (log w1) = 1%nat /\
  handler_runs (log w') = 1%nat /\
  scheduled w' = scheduled w1 /\ next_id w' = next_id w1.
Proof.
  intros Hn Hs wr w1 w'.
  destruct (before_ready pre t0 s0 d Hn) as (Hw & _ & Hsch & _ & Hh & _).
  fold wr in Hw, Hsch, Hh.
  split; [exact Hh|]. split; [exact Hsch|].
  split.
  { pose proof (g_perm (proj1 Hw)) as Hp. rewrite Hsch in Hp.
    apply Permutation_nil in Hp. now apply app_eq_nil in Hp. }
  destruct (after_single_load pre [] t0 s0 d Hn Hs) as (_ & _ & H1 & _).
  destruct (after_single_load pre post t0 s0 d Hn Hs) as (_ & _ & H' & _).
  destruct (targets_after_ready pre post t0 s0 d Hn) as (_ & Es & Ei & _).
  auto.
Qed.

(** C10. The danger exclusion is an exact match of the class token
    [alert-danger]: for an alert element of the page the danger test is
    true exactly when one of its class tokens is that string; an element
    of class [alert alert-warning], or of class [alert alert-danger-custom]
    (which has [alert-danger] as a substring), or any alert element with
    no token equal to [alert-danger], is not danger, and a run of the
    listener arms exactly one timer for it, with delay 4000. *)
Theorem danger_marker_is_exact_token
  (t0 : N) (s0 : TK tk) d (evs : list (Event tk)) (e : Element) :
  let w := run evs (page_load tk t0 s0 d) in
  distinct_nodes (doc w) = true ->
  In e (doc w) ->
  In "alert" (classList e) ->
  className e = "alert alert-warning" \/
  className e = "alert alert-danger-custom" \/
  ~ In "alert-danger" (classList e) ->
  (danger (doc w) (node e) = true <-> In "alert-danger" (classList e)) /\
  danger (doc w) (node e) = false /\
  (className e = "alert alert-danger-custom" ->
   occurs_in "alert-danger" (className e) = true) /\
  exists t, aimed_at (node e) (armed_by_ready w) = [t] /\ delay t = 4000.
Proof.
  intros w Hd Hin Ha Hcase.
  assert (Hno : ~ In "alert-danger" (classList e)).
  { destruct Hcase as [E|[E|H]]; [| |exact H]; unfold classList; rewrite E;
      cbn; intros H; repeat (destruct H as [H|H]; [discriminate H|]);
      exact H. }
  rewrite (danger_distinct _ e Hd Hin).
  split; [apply contains_In|].
  split; [now apply contains_not_In|].
  split; [intros ->; reflexivity|].
  assert (Hel : In (node e) (eligible (doc w))).
  { apply eligible_iff; auto. split.
    - cbn [matches]. now apply contains_In.
    - now apply contains_not_In. }
  destruct (aimed_at_fresh_one (next_id w) (now w) _ _
              (eligible_NoDup _ Hd) Hel) as (j & Ej).
  eexists. rewrite armed_by_ready_eq. split; [exact Ej|reflexivity].
Qed.

(** What the listener arms depends on the page only through the alert
    elements and their danger markers. *)
Lemma eligible_view d :
  distinct_nodes d = true ->
  eligible d = map fst (filter (fun p => negb (snd p)) (alert_view d)).
Proof.
  intros Hd. unfold eligible, alert_view.
  assert (H : forall l, incl l d ->
    filter (fun el => negb (danger d el)) (map node l)
    = map fst (filter (fun p => negb (snd p))
                 (map (fun e => (node e, contains "alert-danger" (classList e)))
                      l))).
  { induction l as [|e l IH]; intros Hl; [reflexivity|].
    cbn [map filter snd].
    rewrite (danger_distinct d e Hd (Hl e (or_introl eq_refl))).
    rewrite IH by (intros x Hx; apply Hl; now right).
    destruct (contains "alert-danger" (classList e)); reflexivity. }
  apply H. intros x Hx. apply filter_In in Hx. tauto.
Qed.

Lemma fresh_view k (t0 : N) els :
  map (fun t => (target t, delay t)) (fresh k t0 els)
  = map (fun n => (n, 4000)) els.
Proof.
  revert k. induction els as [|el els IH]; intros k; [reflexivity|].
  cbn [fresh map]. now rewrite IH.
Qed.

End Proofs.

(** C9. Scheduling is a function of the alert elements and their danger
    markers alone: two runs of the ready listener, in any two worlds (other
    clock, other timers, other toolkit, other non-alert content) whose
    pages show the same alert elements with the same markers, arm timers
    for the same nodes in the same order, every one with delay 4000. *)
Theorem scheduling_is_deterministic
  (tk1 tk2 : Toolkit) (w1 : World tk1) (w2 : World tk2) :
  distinct_nodes (doc w1) = true ->
  distinct_nodes (doc w2) = true ->
  alert_view (doc w1) = alert_view (doc w2) ->
  map (fun t => (target t, delay t)) (armed_by_ready w1)
  = map (fun t => (target t, delay t)) (armed_by_ready w2) /\
  Forall (fun t => delay t = 4000) (armed_by_ready w1) /\
  Forall (fun t => delay t = 4000) (armed_by_ready w2).
Proof.
  intros H1 H2 Hv. rewrite !armed_by_ready_eq, !fresh_view.
  rewrite (eligible_view _ H1), (eligible_view _ H2), Hv.
  split; [reflexivity|].
  split; (eapply Forall_impl; [|apply fresh_due]); intros t [_ Ht]; exact Ht.
Qed.

(** * The model on sample pages *)

(** The three-alert page with a working toolkit: A and C are closed one
    after the other at clock value 4000, B is left alone. *)
Example three_alerts_log :
  let w := run [EvScript; EvReady; EvAdvance 4000]
               (page_load working 0 tt three_alerts) in
  log w
  = [ObsClose 3; ObsGet 3; ObsFired (mkTimer 1 0 4000 (DismissCb 3)) 4000;
     ObsClose 1; ObsGet 1; ObsFired (mkTimer 0 0 4000 (DismissCb 1)) 4000;
     ObsHandler]
  /\ doc w = [heading; alertB] /\ timers w = [] /\ uncaught w = [].
Proof. repeat split. Qed.

(** A was dismissed by hand first, and the toolkit throws on a node that
    is gone: the error is swallowed and C is closed all the same. *)
Example close_throws_for_removed_node :
  let w := run [EvScript; EvReady; user_removes 1%nat; EvAdvance 4000]
               (page_load strict 0 tt three_alerts) in
  fst (close strict 1%nat tt [heading; alertB; alertC])
  = Throw "NotFoundError: the node is gone" /\
  calls_close 1 (log w) = 1%nat /\ calls_close 3 (log w) = 1%nat /\
  doc w = [heading; alertB] /\ uncaught w = [].
Proof. repeat split. Qed.

(** Without the toolkit every callback fails at the accessor, silently. *)
Example missing_toolkit_is_silent :
  let w := run [EvScript; EvReady; EvAdvance 4000]
               (page_load missing 0 tt three_alerts) in
  calls_get 1 (log w) = 1%nat /\ calls_close 1 (log w) = 0%nat /\
  calls_get 3 (log w) = 1%nat /\ calls_close 3 (log w) = 0%nat /\
  doc w = three_alerts /\ uncaught w = [].
Proof. repeat split. Qed.

(** Timers armed at different clock values fire at different clock
    values: the delay runs from the call, not from the page load. *)
Example delay_runs_from_the_call :
  let w := run [EvScript; EvAdvance 1500; EvReady; EvAdvance 4000]
               (page_load working 0 tt three_alerts) in
  fire_times 0 (log w) = [5500] /\ fire_times 1 (log w) = [5500] /\
  now w = 5500.
Proof. repeat split. Qed.

(** The [try] is what keeps the page alive: the body of the callback run
    without it lets the error escape, and the page halts. *)
Example unguarded_body_would_halt :
  let w0 := page_load missing 0 tt three_alerts in
  halted (run_task (bind (Alert_getOrCreateInstance 1)
                         (fun bs => Alert_close 1 bs)) w0) = true /\
  halted (run_task (dismiss 1) w0) = false.
Proof. split; reflexivity. Qed.

(** The script registers a listener and does not look at the state of the
    document: evaluated after the ready event it never runs, and evaluated
    twice before it, it runs twice. *)
Example late_script_never_runs :
  let w := run [EvReady; EvScript; EvAdvance 5000]
               (page_load working 0 tt three_alerts) in
  handler_runs (log w) = 0%nat /\ scheduled w = [].
Proof. split; reflexivity. Qed.

Example script_included_twice :
  let w := run [EvScript; EvScript; EvReady]
               (page_load working 0 tt three_alerts) in
  handler_runs (log w) = 2%nat /\
  List.length (aimed_at 1 (scheduled w)) = 2%nat.
Proof. split; reflexivity. Qed.

(** * Instances *)

Lemma eligible_alert_gets_one_timer_witness :
  let w := run [EvScript; EvAdvance 250] (page_load working 10 tt three_alerts) in
  (distinct_nodes (doc w) = true /\ In alertC (doc w) /\
   matches (ClassSel "alert") alertC = true /\
   contains "alert-danger" (classList alertC) = false) /\
  exists t,
    aimed_at (node alertC) (armed_by_ready w) = [t] /\
    set_at t = now w /\ delay t = 4000 /\
    forall post,
      let w' := run post (dispatch AutoDismiss w) in
      (now w' < now w + 4000 ->
       In t (timers w') /\ fire_times (tid t) (log w') = []) /\
      (now w + 4000 <= now w' ->
       ~ In t (timers w') /\ fire_times (tid t) (log w') = [now w + 4000]).
Proof.
  intros w.
  assert (H1 : distinct_nodes (doc w) = true) by reflexivity.
  assert (H2 : In alertC (doc w)) by (simpl; auto).
  assert (H3 : matches (ClassSel "alert") alertC = true) by reflexivity.
  assert (H4 : contains "alert-danger" (classList alertC) = false)
    by reflexivity.
  split; [auto|].
  exact (eligible_alert_gets_one_timer (tk:=working) 10 tt three_alerts
           [EvScript; EvAdvance 250] alertC H1 H2 H3 H4).
Defined.

Lemma danger_alert_never_scheduled_witness :
  let pre : list (Event working) := [EvScript] in
  let post : list (Event working) := [EvAdvance 5000] in
  let wr := run pre (page_load working 0 tt three_alerts) in
  let w' := run post (exec EvReady wr) in
  (no_ready pre = true /\ distinct_nodes (doc wr) = true /\
   In alertB (doc wr) /\ matches (ClassSel "alert") alertB = true /\
   contains "alert-danger" (classList alertB) = true) /\
  (scheduled wr = [] /\
   aimed_at (node alertB) (scheduled w') = [] /\
   aimed_at (node alertB) (timers w') = [] /\
   calls_get (node alertB) (log w') = 0%nat /\
   calls_close (node alertB) (log w') = 0%nat).
Proof.
  intros pre post wr w'.
  assert (H1 : no_ready pre = true) by reflexivity.
  assert (H2 : distinct_nodes (doc wr) = true) by reflexivity.
  assert (H3 : In alertB (doc wr)) by (simpl; auto).
  assert (H4 : matches (ClassSel "alert") alertB = true) by reflexivity.
  assert (H5 : contains "alert-danger" (classList alertB) = true)
    by reflexivity.
  split; [auto|].
  exact (danger_alert_never_scheduled (tk:=working) 0 tt three_alerts pre post alertB
           H1 H2 H3 H4 H5).
Defined.

Lemma late_alert_never_scheduled_witness :
  let pre : list (Event working) := [EvScript] in
  let post : list (Event working) :=
    [EvAdvance 100; page_inserts alertE; EvAdvance 9000] in
  let wr := run pre (page_load working 0 tt three_alerts) in
  let w' := run post (exec EvReady wr) in
  (no_ready pre = true /\ in_page (node alertE) (doc wr) = false) /\
  in_page (node alertE) (doc w') = true /\
  (scheduled w' = scheduled (exec EvReady wr) /\
   next_id w' = next_id (exec EvReady wr) /\
   aimed_at (node alertE) (scheduled w') = [] /\
   aimed_at (node alertE) (timers w') = [] /\
   calls_get (node alertE) (log w') = 0%nat /\
   calls_close (node alertE) (log w') = 0%nat).
Proof.
  intros pre post wr w'.
  assert (H1 : no_ready pre = true) by reflexivity.
  assert (H2 : in_page (node alertE) (doc wr) = false) by reflexivity.
  split; [auto|]. split; [reflexivity|].
  exact (late_alert_never_scheduled (tk:=working) 0 tt three_alerts pre post (node alertE)
           H1 H2).
Defined.

Lemma working_accessor_total : accessor_total working.
Proof. intros el s d. exists el, (s, d). reflexivity. Defined.

Lemma three_alert_scenario_witness :
  let pre : list (Event working) := [EvScript] in
  let post : list (Event working) := [EvAdvance 4000] in
  let wr := run pre (page_load working 0 tt three_alerts) in
  let w' := run post (exec EvReady wr) in
  (no_ready pre = true /\ scripts_in pre = 1%nat /\
   distinct_nodes (doc wr) = true /\
   Permutation (filter (matches (ClassSel "alert")) (doc wr))
               [alertA; alertB; alertC] /\
   contains "alert-danger" (classList alertA) = false /\
   contains "alert-danger" (classList alertB) = true /\
   contains "alert-danger" (classList alertC) = false /\
   now wr + 4000 <= now w' /\ accessor_total working) /\
  calls_close (node alertA) (log w') = 1%nat /\
  calls_close (node alertB) (log w') = 0%nat /\
  calls_close (node alertC) (log w') = 1%nat.
Proof.
  intros pre post wr w'.
  assert (H1 : no_ready pre = true) by reflexivity.
  assert (H2 : scripts_in pre = 1%nat) by reflexivity.
  assert (H3 : distinct_nodes (doc wr) = true) by reflexivity.
  assert (H4 : Permutation (filter (matches (ClassSel "alert")) (doc wr))
                           [alertA; alertB; alertC]) by reflexivity.
  assert (H5 : contains "alert-danger" (classList alertA) = false)
    by reflexivity.
  assert (H6 : contains "alert-danger" (classList alertB) = true)
    by reflexivity.
  assert (H7 : contains "alert-danger" (classList alertC) = false)
    by reflexivity.
  assert (H8 : now wr + 4000 <= now w') by (vm_compute; discriminate).
  split; [repeat split; auto; exact working_accessor_total|].
  destruct (three_alert_scenario (tk:=working) 0 tt three_alerts pre post
              alertA alertB alertC H1 H2 H3 H4 H5 H6 H7 H8)
    as (_ & _ & Hb & Hac).
  destruct (Hac working_accessor_total) as [Ha Hc].
  auto.
Defined.

Lemma eligibility_is_read_at_ready_witness :
  let pre : list (Event working) := [EvScript] in
  let post : list (Event working) :=
    [EvAdvance 1000; page_remarks 1%nat "alert alert-danger";
     page_remarks 2%nat "alert alert-info"; EvAdvance 3000] in
  let wr := run pre (page_load working 0 tt three_alerts) in
  let w' := run post (exec EvReady wr) in
  (no_ready pre = true /\ scripts_in pre = 1%nat /\
   distinct_nodes (doc wr) = true /\ In alertA (doc wr) /\
   matches (ClassSel "alert") alertA = true /\ now wr + 4000 <= now w') /\
  List.length (aimed_at (node alertA) (fired (log w'))) = 1%nat /\
  calls_get (node alertA) (log w') = 1%nat /\
  (accessor_total working -> calls_close (node alertA) (log w') = 1%nat).
Proof.
  intros pre post wr w'.
  assert (H1 : no_ready pre = true) by reflexivity.
  assert (H2 : scripts_in pre = 1%nat) by reflexivity.
  assert (H3 : distinct_nodes (doc wr) = true) by reflexivity.
  assert (H4 : In alertA (doc wr)) by (simpl; auto).
  assert (H5 : matches (ClassSel "alert") alertA = true) by reflexivity.
  assert (H6 : now wr + 4000 <= now w') by (vm_compute; discriminate).
  split; [repeat split; auto|].
  exact (eligibility_is_read_at_ready (tk:=working) 0 tt three_alerts pre post alertA
           H1 H2 H3 H4 H5 H6).
Defined.

Lemma armed_timer_cannot_be_aborted_witness :
  let evs : list (Event strict) := [EvScript; EvReady] in
  let post : list (Event strict) := [user_removes 1%nat; EvAdvance 4000] in
  let t := mkTimer 0 0 4000 (DismissCb 1) in
  let w := run evs (page_load strict 0 tt three_alerts) in
  let w' := run post w in
  In t (timers w) /\
  uncaught w' = [] /\
  (now w' < due t -> In t (timers w')) /\
  (due t <= now w' ->
   ~ In t (timers w') /\ fire_times (tid t) (log w') = [due t] /\
   (1 <= calls_get (target t) (log w'))%nat).
Proof.
  intros evs post t w w'.
  assert (H1 : In t (timers w)) by (simpl; auto).
  split; [exact H1|].
  exact (armed_timer_cannot_be_aborted (tk:=strict) 0 tt three_alerts evs post t H1).
Defined.

Lemma listener_runs_once_per_load_witness :
  let pre : list (Event working) := [EvAdvance 20; EvScript; EvAdvance 30] in
  let post : list (Event working) :=
    [EvAdvance 10; EvReady; EvScript; EvAdvance 5000; EvReady] in
  let wr := run pre (page_load working 0 tt three_alerts) in
  let w1 := exec EvReady wr in
  let w' := run post w1 in
  (no_ready pre = true /\ scripts_in pre = 1%nat) /\
  handler_runs (log wr) = 0%nat /\ scheduled wr = [] /\ timers wr = [] /\
  handler_runs (log w1) = 1%nat /\
  handler_runs (log w') = 1%nat /\
  scheduled w' = scheduled w1 /\ next_id w' = next_id w1.
Proof.
  intros pre post wr w1 w'.
  assert (H1 : no_ready pre = true) by reflexivity.
  assert (H2 : scripts_in pre = 1%nat) by reflexivity.
  split; [auto|].
  exact (listener_runs_once_per_load (tk:=working) 0 tt three_alerts pre post H1 H2).
Defined.

Lemma scheduling_is_deterministic_witness :
  let w1 := page_load working 0 tt three_alerts in
  let w2 := run [EvAdvance 77]
              (page_load missing 5 tt
                 [mkElement 1 "alert alert-primary"; mkElement 8 "footer";
                  mkElement 2 "alert-danger alert"; mkElement 3 "alert"]) in
  (distinct_nodes (doc w1) = true /\ distinct_nodes (doc w2) = true /\
   alert_view (doc w1) = alert_view (doc w2)) /\
  map (fun t => (target t, delay t)) (armed_by_ready w1)
  = map (fun t => (target t, delay t)) (armed_by_ready w2) /\
  Forall (fun t => delay t = 4000) (armed_by_ready w1) /\
  Forall (fun t => delay t = 4000) (armed_by_ready w2).
Proof.
  intros w1 w2.
  assert (H1 : distinct_nodes (doc w1) = true) by reflexivity.
  assert (H2 : distinct_nodes (doc w2) = true) by reflexivity.
  assert (H3 : alert_view (doc w1) = alert_view (doc w2)) by reflexivity.
  split; [auto|].
  exact (scheduling_is_deterministic working missing w1 w2 H1 H2 H3).
Defined.

Lemma danger_marker_is_exact_token_witness :
  let w := run [EvScript] (page_load working 0 tt [alertB; alertD; alertE]) in
  (distinct_nodes (doc w) = true /\ In alertD (doc w) /\
   In "alert" (classList alertD) /\
   className alertD = "alert alert-danger-custom") /\
  (danger (doc w) (node alertD) = true <-> In "alert-danger" (classList alertD)) /\
  danger (doc w) (node alertD) = false /\
  (className alertD = "alert alert-danger-custom" ->
   occurs_in "alert-danger" (className alertD) = true) /\
  exists t, aimed_at (node alertD) (armed_by_ready w) = [t] /\ delay t = 4000.
Proof.
  intros w.
  assert (H1 : distinct_nodes (doc w) = true) by reflexivity.
  assert (H2 : In alertD (doc w)) by (simpl; auto).
  assert (H3 : In "alert" (classList alertD)) by (simpl; auto).
  assert (H4 : className alertD = "alert alert-danger-custom") by reflexivity.
  split; [auto|].
  exact (danger_marker_is_exact_token (tk:=working) 0 tt [alertB; alertD; alertE] [EvScript]
           alertD H1 H2 H3 (or_intror (or_introl H4))).
Defined.

(** * Further properties of the script *)

Section More.

Context {tk : Toolkit}.
Implicit Types (w : World tk) (t : Timer) (n el : NodeId) (d : Doc).

(** ** What the ready event arms, for any number of listeners *)

Lemma dispatch_all_armed (d0 : Doc) (at0 : N) ls :
  forall w,
    Inv w -> doc w = d0 -> now w = at0 ->
    forall t, In t (scheduled (fold_left (fun w l => dispatch l w) ls w)) ->
              In t (scheduled w) \/
              (In (target t) (eligible d0) /\ set_at t = at0 /\ delay t = 4000).
Proof.
  induction ls as [|l ls IH]; intros w Hw Hd Hn t; cbn [fold_left]; [auto|].
  destruct (dispatch_fields l w (Good_not_halted _ _ (proj1 Hw)))
    as (E1 & E2 & _ & E4 & _).
  intros Hin.
  destruct (IH (dispatch l w)) with (t := t) as [Hs|He];
    [now apply Inv_dispatch|congruence|congruence|exact Hin| |now right].
  rewrite E4 in Hs. apply in_app_or in Hs.
  destruct Hs as [Hs|Hs]; [now left|right].
  apply fresh_target in Hs. rewrite Hd, Hn in Hs. exact Hs.
Qed.

(** After the ready event every timer there is closes over a node that
    was eligible at the event and is due 4000 after it. *)
Lemma armed_after_ready pre post (t0 : N) (s0 : TK tk) d :
  no_ready pre = true ->
  let wr := run pre (page_load tk t0 s0 d) in
  let w' := run post (exec EvReady wr) in
  Inv w' /\
  forall t, In t (scheduled w') ->
            In (target t) (eligible (doc wr)) /\ due t = now wr + 4000.
Proof.
  intros Hn wr w'.
  destruct (before_ready pre t0 s0 d Hn) as (Hw & Hl & Hs & _).
  fold wr in Hw, Hl, Hs.
  destruct (targets_after_ready pre post t0 s0 d Hn) as (Hw' & Es & _ & _).
  fold wr w' in Hw', Es. split; [exact Hw'|].
  intros t Hin. rewrite Es in Hin. unfold exec in Hin.
  rewrite (Good_not_halted _ _ (proj1 Hw)), Hl in Hin.
  destruct (dispatch_all_armed (doc wr) (now wr) (listeners wr) (set_loaded wr))
    with (t := t) as [H|(H1 & H2 & H3)]; auto.
  - destruct Hw as [G Hf]. split; [now apply Good_set_loaded|exact Hf].
  - cbn in H. rewrite Hs in H. destruct H.
  - split; [exact H1|]. unfold due. now rewrite H2, H3.
Qed.

(** X1. Until 4000 clock units have passed since the ready event, the
    script has done nothing to any element: no timer callback has run and
    neither the accessor nor close has been called on any node, whatever
    else happened on the page and however many times the script was
    evaluated. *)
Theorem nothing_is_closed_before_the_delay
  (t0 : N) (s0 : TK tk) d (pre post : list (Event tk)) :
  no_ready pre = true ->
  let wr := run pre (page_load tk t0 s0 d) in
  let w' := run post (exec EvReady wr) in
  now w' < now wr + 4000 ->
  fired (log w') = [] /\
  Permutation (timers w') (scheduled w') /\
  forall n, calls_get n (log w') = 0%nat /\ calls_close n (log w') = 0%nat.
Proof.
  intros Hn wr w' Hlt.
  destruct (armed_after_ready pre post t0 s0 d Hn) as (Hw' & Hdue).
  fold wr w' in Hw', Hdue.
  pose proof (g_perm (proj1 Hw')) as Hp. cbn [app] in Hp.
  assert (Hf : fired (log w') = []).
  { destruct (fired (log w')) as [|t ts] eqn:E; [reflexivity|]. exfalso.
    assert (Hin : In t (fired (log w'))) by (rewrite E; now left).
    pose proof (fired_past _ _ _ (g_log (proj1 Hw')) Hin) as Hpast.
    assert (Hs : In t (scheduled w')).
    { apply (Permutation_in _ (Permutation_sym Hp)), in_or_app. right.
      now rewrite <- E. }
    destruct (Hdue t Hs) as [_ Ed]. lia. }
  split; [exact Hf|]. split.
  - rewrite Hf, app_nil_r in Hp. now symmetry.
  - intros n. pose proof (g_gets (proj1 Hw') n) as Eg.
    pose proof (g_closes (proj1 Hw') n) as Ec.
    rewrite Hf in Eg. cbn in Eg. lia.
Qed.

(** X2. The script only ever calls the toolkit on non-danger alerts of
    the page as it stood at the ready event: a node on which the accessor
    or close has been called is the node of an element that was in the
    page then, matched the alert selector and failed the danger test. *)
Theorem calls_only_on_eligible_nodes
  (t0 : N) (s0 : TK tk) d (pre post : list (Event tk)) (n : NodeId) :
  no_ready pre = true ->
  let wr := run pre (page_load tk t0 s0 d) in
  let w' := run post (exec EvReady wr) in
  (0 < calls_get n (log w'))%nat \/ (0 < calls_close n (log w'))%nat ->
  exists e,
    In e (doc wr) /\ node e = n /\
    matches (ClassSel "alert") e = true /\ danger (doc wr) n = false.
Proof.
  intros Hn wr w' Hcall.
  destruct (armed_after_ready pre post t0 s0 d Hn) as (Hw' & Hdue).
  fold wr w' in Hw', Hdue.
  destruct (in_dec Nat.eq_dec n (eligible (doc wr))) as [Hel|Hnel].
  - unfold eligible in Hel. apply filter_In in Hel. destruct Hel as [Hm Hd].
    apply in_map_iff in Hm. destruct Hm as (e & Ee & He).
    apply filter_In in He. destruct He as [He Hm].
    exists e. apply negb_true_iff in Hd. auto.
  - exfalso.
    destruct (never_aimed w' n Hw') as (_ & _ & Eg & Ec).
    + intros t Hin E. destruct (Hdue t Hin) as [Ht _]. now rewrite E in Ht.
    + lia.
Qed.

(** X3. A script evaluated only after the ready event never takes
    effect: the listener is registered too late, it never runs, nothing is
    armed and no element is ever called on. *)
Theorem script_after_ready_never_runs
  (t0 : N) (s0 : TK tk) d (pre post : list (Event tk)) :
  no_ready pre = true -> scripts_in pre = 0%nat ->
  let wr := run pre (page_load tk t0 s0 d) in
  let w' := run post (exec EvReady wr) in
  handler_runs (log w') = 0%nat /\ scheduled w' = [] /\ timers w' = [] /\
  forall n, calls_get n (log w') = 0%nat /\ calls_close n (log w') = 0%nat.
Proof.
  intros Hn Hs wr w'.
  destruct (before_ready pre t0 s0 d Hn) as (Hw & Hl & Hsch & _ & Hh & _ & Hls).
  fold wr in Hw, Hl, Hsch, Hh, Hls. rewrite Hs in Hls.
  destruct (listeners wr) as [|l ls] eqn:El; [|discriminate].
  assert (E1 : exec EvReady wr = set_loaded wr).
  { unfold exec. now rewrite (Good_not_halted _ _ (proj1 Hw)), Hl, El. }
  pose proof (run_quiet_loaded post (exec EvReady wr) (ready_loaded wr Hw)) as Q.
  fold w' in Q. rewrite E1 in Q. cbn [set_loaded scheduled log] in Q.
  assert (Hw' : Inv w') by (apply Inv_run; now apply Inv_exec).
  assert (Es : scheduled w' = []) by (rewrite (q_scheduled Q); exact Hsch).
  split; [rewrite (q_handlers Q); exact Hh|]. split; [exact Es|].
  split.
  - pose proof (g_perm (proj1 Hw')) as Hp. rewrite Es in Hp.
    apply Permutation_nil in Hp. now apply app_eq_nil in Hp.
  - intros n. destruct (never_aimed w' n Hw') as (_ & _ & Eg & Ec); auto.
    rewrite Es. intros t [].
Qed.

(** X4. On a page with no element matching the alert selector the script
    arms nothing and never touches the toolkit, at the ready event or at
    any time after it. *)
Theorem page_without_alerts_is_left_alone
  (t0 : N) (s0 : TK tk) d (pre post : list (Event tk)) :
  no_ready pre = true ->
  let wr := run pre (page_load tk t0 s0 d) in
  filter (matches (ClassSel "alert")) (doc wr) = [] ->
  let w' := run post (exec EvReady wr) in
  scheduled w' = [] /\ timers w' = [] /\ fired (log w') = [] /\
  forall n, calls_get n (log w') = 0%nat /\ calls_close n (log w') = 0%nat.
Proof.
  intros Hn wr Hnone w'.
  destruct (armed_after_ready pre post t0 s0 d Hn) as (Hw' & Hdue).
  fold wr w' in Hw', Hdue.
  assert (Es : scheduled w' = []).
  { destruct (scheduled w') as [|t ts] eqn:E; [reflexivity|]. exfalso.
    destruct (Hdue t (or_introl eq_refl)) as [Ht _].
    unfold eligible in Ht. rewrite Hnone in Ht. destruct Ht. }
  pose proof (g_perm (proj1 Hw')) as Hp. rewrite Es in Hp.
  apply Permutation_nil, app_eq_nil in Hp. destruct Hp as [Et Ef].
  cbn [app] in Ef.
  split; [exact Es|]. split; [exact Et|]. split; [exact Ef|].
  intros n. destruct (never_aimed w' n Hw') as (_ & _ & Eg & Ec); auto.
  rewrite Es. intros t [].
Qed.

(** ** Several evaluations of the script *)

Lemma dispatch_all_count (d0 : Doc) n ls :
  forall w,
    Inv w -> doc w = d0 -> NoDup (eligible d0) -> In n (eligible d0) ->
    let w' := fold_left (fun w l => dispatch l w) ls w in
    List.length (aimed_at n (scheduled w'))
    = (List.length (aimed_at n (scheduled w)) + List.length ls)%nat /\
    handler_runs (log w') = (handler_runs (log w) + List.length ls)%nat.
Proof.
  induction ls as [|l ls IH]; intros w Hw Hd Hnd Hin; cbn [fold_left].
  - cbn. split; lia.
  - destruct (dispatch_fields l w (Good_not_halted _ _ (proj1 Hw)))
      as (E1 & _ & _ & E4 & E5).
    destruct (IH (dispatch l w)) as (A & B);
      [now apply Inv_dispatch|congruence|exact Hnd|exact Hin|].
    cbn zeta. rewrite A, B, E4, E5. unfold aimed_at at 1.
    rewrite filter_app, length_app. fold (aimed_at n (scheduled w)).
    rewrite Hd.
    fold (aimed_at n (fresh (next_id w) (now w) (eligible d0))).
    destruct (aimed_at_fresh_one (next_id w) (now w) (eligible d0) n Hnd Hin)
      as (j & ->).
    cbn [List.length]. split; lia.
Qed.

(** X5. The script keeps no record of having been evaluated: each
    evaluation before the ready event registers one more listener, so
    after [k] evaluations the listener runs [k] times at the ready event,
    [k] timers are armed for every non-danger alert, and once the delay
    has run out the accessor has been called [k] times on it. *)
Theorem every_evaluation_adds_a_run
  (t0 : N) (s0 : TK tk) d (pre post : list (Event tk)) (e : Element) :
  no_ready pre = true ->
  let wr := run pre (page_load tk t0 s0 d) in
  distinct_nodes (doc wr) = true ->
  In e (doc wr) ->
  matches (ClassSel "alert") e = true ->
  contains "alert-danger" (classList e) = false ->
  let w' := run post (exec EvReady wr) in
  handler_runs (log w') = scripts_in pre /\
  List.length (aimed_at (node e) (scheduled w')) = scripts_in pre /\
  (now wr + 4000 <= now w' ->
   calls_get (node e) (log w') = scripts_in pre).
Proof.
  intros Hn wr Hd Hin Hm Hc w'.
  destruct (before_ready pre t0 s0 d Hn) as (Hw & Hl & Hsch & _ & Hh & _ & Hls).
  fold wr in Hw, Hl, Hsch, Hh, Hls.
  assert (Hws : Inv (set_loaded wr)).
  { destruct Hw as [G Hf]. split; [now apply Good_set_loaded|exact Hf]. }
  destruct (dispatch_all_count (doc wr) (node e) (listeners wr) (set_loaded wr))
    as (A & B); auto.
  { now apply eligible_NoDup. }
  { apply eligible_iff; auto. }
  cbn zeta in A, B. cbn [set_loaded scheduled log] in A, B.
  assert (E1 : exec EvReady wr
               = fold_left (fun w l => dispatch l w) (listeners wr)
                           (set_loaded wr)).
  { unfold exec. now rewrite (Good_not_halted _ _ (proj1 Hw)), Hl. }
  rewrite <- E1 in A, B.
  pose proof (run_quiet_loaded post _ (ready_loaded wr Hw)) as Q.
  fold w' in Q.
  rewrite Hsch in A. cbn in A. rewrite Hh, Hls in B. rewrite Hls in A.
  cbn in B.
  split; [rewrite (q_handlers Q); exact B|].
  split; [rewrite (q_scheduled Q); exact A|].
  intros Hle.
  destruct (armed_after_ready pre post t0 s0 d Hn) as (Hw' & Hdue).
  fold wr w' in Hw', Hdue.
  rewrite (calls_settled w' (node e) Hw').
  - rewrite (q_scheduled Q). exact A.
  - intros t Ht. destruct (Hdue t Ht) as [_ ->]. exact Hle.
Qed.

(** ** At most one call per element *)

Lemma aimed_at_fresh_le k (at0 : N) els n :
  NoDup els -> (List.length (aimed_at n (fresh k at0 els)) <= 1)%nat.
Proof.
  intros Hnd. destruct (in_dec Nat.eq_dec n els) as [Hin|Hout].
  - destruct (aimed_at_fresh_one k at0 els n Hnd Hin) as (j & ->). cbn. lia.
  - rewrite aimed_at_fresh_none by exact Hout. cbn. lia.
Qed.

(** X6. After a load in which the script was evaluated once, no element
    is ever called on twice: at every later moment each node has received
    at most one accessor call, and close has been called on it no more
    often than the accessor. *)
Theorem no_element_is_closed_twice
  (t0 : N) (s0 : TK tk) d (pre post : list (Event tk)) (n : NodeId) :
  no_ready pre = true -> scripts_in pre = 1%nat ->
  let wr := run pre (page_load tk t0 s0 d) in
  distinct_nodes (doc wr) = true ->
  let w' := run post (exec EvReady wr) in
  (calls_close n (log w') <= calls_get n (log w'))%nat /\
  (calls_get n (log w') <= 1)%nat.
Proof.
  intros Hn Hs wr Hd w'.
  destruct (after_single_load pre post t0 s0 d Hn Hs) as (Hw' & _ & _ & Es).
  fold wr w' in Hw', Es.
  split; [exact (g_closes (proj1 Hw') n)|].
  rewrite (g_gets (proj1 Hw')).
  pose proof (g_perm (proj1 Hw')) as Hp. cbn [app] in Hp.
  pose proof (Permutation_filter_length
                (fun t => Nat.eqb (target t) n) _ _ Hp) as El.
  rewrite filter_app, length_app in El.
  fold (aimed_at n (scheduled w')) in El.
  fold (aimed_at n (fired (log w'))) in El.
  rewrite Es in El.
  pose proof (aimed_at_fresh_le 0 (now wr) (eligible (doc wr)) n
                (eligible_NoDup _ Hd)).
  lia.
Qed.

(** ** What the log can contain *)





(** ** The ready event by itself *)

Lemma dispatch_frame l w :
  halted w = false ->
  let w' := dispatch l w in
  doc w' = doc w /\ host w' = host w /\ now w' = now w /\
  log w' = ObsHandler :: log w /\
  timers w' = timers w ++ fresh (next_id w) (now w) (eligible (doc w)).
Proof.
  intros Hh. cbn zeta. rewrite (dispatch_eq l w Hh).
  destruct (arm_all_fields (fresh (next_id w) (now w) (eligible (doc w)))
                           (note ObsHandler w))
    as (E1 & _ & _ & E4 & E5 & E6 & _ & E8 & _).
  cbn zeta in *. rewrite E1, E4, E5, E6, E8. repeat split.
Qed.

Lemma dispatch_all_frame ls :
  forall w,
    Inv w ->
    let w' := fold_left (fun w l => dispatch l w) ls w in
    doc w' = doc w /\ host w' = host w /\ now w' = now w /\
    fired (log w') = fired (log w) /\
    (forall n, calls_get n (log w') = calls_get n (log w) /\
               calls_close n (log w') = calls_close n (log w)) /\
    exists more, timers w' = timers w ++ more.
Proof.
  induction ls as [|l ls IH]; intros w Hw; cbn [fold_left].
  - repeat split. exists []. now rewrite app_nil_r.
  - destruct (dispatch_frame l w (Good_not_halted _ _ (proj1 Hw)))
      as (E1 & E2 & E3 & E4 & E5).
    destruct (IH (dispatch l w) (Inv_dispatch l w Hw))
      as (F1 & F2 & F3 & F4 & F5 & (more & F6)).
    cbn zeta. rewrite F1, F2, F3, F4, F6, E1, E2, E3, E4, E5.
    repeat split.
    + rewrite (proj1 (F5 n)), E4. reflexivity.
    + rewrite (proj2 (F5 n)), E4. reflexivity.
    + rewrite <- app_assoc. eexists. reflexivity.
Qed.

(** X8. The ready event by itself closes nothing: whenever it is
    dispatched, the listener leaves the page, the toolkit state and the
    clock as they were, makes no call to the toolkit and runs no timer
    callback; all it does is add timers behind the pending ones. *)
Theorem ready_event_only_arms
  (t0 : N) (s0 : TK tk) d (evs : list (Event tk)) :
  let w := run evs (page_load tk t0 s0 d) in
  let w1 := exec EvReady w in
  doc w1 = doc w /\ host w1 = host w /\ now w1 = now w /\
  fired (log w1) = fired (log w) /\
  (forall n, calls_get n (log w1) = calls_get n (log w) /\
             calls_close n (log w1) = calls_close n (log w)) /\
  (exists more, timers w1 = timers w ++ more) /\
  (exists more, scheduled w1 = scheduled w ++ more).
Proof.
  intros w w1.
  assert (Hw : Inv w) by apply Inv_run, Inv_page_load.
  assert (Hs : exists more, scheduled w1 = scheduled w ++ more)
    by apply exec_grows.
  subst w1. unfold exec in *. rewrite (Good_not_halted _ _ (proj1 Hw)) in *.
  destruct (loaded w).
  - repeat split; auto. exists []. now rewrite app_nil_r.
  - destruct (dispatch_all_frame (listeners w) (set_loaded w))
      as (F1 & F2 & F3 & F4 & F5 & F6).
    { destruct Hw as [G Hf]. split; [now apply Good_set_loaded|exact Hf]. }
    cbn zeta in *. repeat split; auto; apply F5.
Qed.

(** ** Document order *)

Lemma fresh_targets k (at0 : N) els : map target (fresh k at0 els) = els.
Proof.
  revert k. induction els as [|el els IH]; intros k; [reflexivity|].
  cbn [fresh map]. now rewrite IH.
Qed.

Lemma eligible_wanted d :
  distinct_nodes d = true -> eligible d = map node (filter wanted d).
Proof.
  intros Hd. unfold eligible.
  assert (H : forall l, incl l d ->
    filter (fun el => negb (danger d el))
           (map node (filter (matches (ClassSel "alert")) l))
    = map node (filter wanted l)).
  { induction l as [|e l IH]; intros Hl; [reflexivity|].
    assert (Hl' : incl l d) by (intros x Hx; apply Hl; now right).
    cbn [filter]. unfold wanted at 1.
    destruct (matches (ClassSel "alert") e); cbn [andb]; [|now apply IH].
    cbn [map filter].
    rewrite (danger_distinct d e Hd (Hl e (or_introl eq_refl))).
    destruct (contains "alert-danger" (classList e)); cbn [negb map];
      now rewrite IH. }
  apply H, incl_refl.
Qed.

(** X9. One run of the listener arms its timers in document order: the
    elements the new timers close over are exactly the elements of the
    page that match the alert selector and fail the danger test, each
    once, in the order of the page; in particular their number is the
    number of such elements. *)
Theorem timers_follow_document_order (w : World tk) :
  distinct_nodes (doc w) = true ->
  map target (armed_by_ready w) = map node (filter wanted (doc w)) /\
  List.length (armed_by_ready w) = List.length (filter wanted (doc w)).
Proof.
  intros Hd.
  assert (E : map target (armed_by_ready w) = map node (filter wanted (doc w))).
  { rewrite armed_by_ready_eq, fresh_targets. now apply eligible_wanted. }
  split; [exact E|].
  apply (f_equal (@List.length NodeId)) in E.
  now rewrite !length_map in E.
Qed.

(** ** Order of the callbacks *)

Lemma sort_same_due (D : N) (q : list Timer) :
  (forall t, In t q -> due t = D) -> sort_timers q = q.
Proof.
  induction q as [|t q IH]; intros Hq; [reflexivity|].
  cbn [sort_timers]. rewrite IH by (intros u Hu; apply Hq; now right).
  destruct q as [|u q]; [reflexivity|]. cbn [insert_timer].
  rewrite (Hq t (or_introl eq_refl)), (Hq u (or_intror (or_introl eq_refl))).
  now rewrite N.leb_refl.
Qed.

Lemma ripe_same_due (D deadline : N) (q : list Timer) :
  (forall t, In t q -> due t = D) ->
  (D <= deadline ->
   filter (ripe deadline) q = q /\
   filter (fun t => negb (ripe deadline t)) q = []) /\
  (deadline < D ->
   filter (ripe deadline) q = [] /\
   filter (fun t => negb (ripe deadline t)) q = q).
Proof.
  induction q as [|t q IH]; intros Hq.
  { split; intros _; split; reflexivity. }
  destruct IH as [IH1 IH2]; [intros u Hu; apply Hq; now right|].
  pose proof (Hq t (or_introl eq_refl)) as Et.
  assert (Er : ripe deadline t = (D <=? deadline)) by (unfold ripe; now rewrite Et).
  split; intros Hcmp; cbn [filter]; rewrite Er.
  - destruct (IH1 Hcmp) as [E1 E2]. rewrite E1, E2.
    destruct (N.leb_spec D deadline); [now split|lia].
  - destruct (IH2 Hcmp) as [E1 E2]. rewrite E1, E2.
    destruct (N.leb_spec D deadline); [lia|now split].
Qed.

Lemma fire_fired t w :
  halted w = false -> now w <= due t ->
  fired (log (fire t w)) = t :: fired (log w).
Proof.
  intros Hh Hle. rewrite (fire_eq t w Hh Hle).
  set (w0 := note (ObsFired t (due t)) (set_now (due t) w)).
  destruct (after_dismiss_fields (target t) w0)
    as (_ & _ & _ & _ & _ & _ & _ & E8).
  cbn zeta in E8. rewrite E8, fired_app.
  destruct (extra_counts (target t) (obtains (target t) w0) 0%nat) as (-> & _).
  reflexivity.
Qed.

Lemma fire_all_same_due (D : N) batch :
  forall w,
    Good w batch -> (forall t, In t batch -> due t = D) -> now w <= D ->
    let w' := fold_left (fun w t => fire t w) batch w in
    fired (log w') = rev batch ++ fired (log w) /\
    timers w' = timers w /\ halted w' = false.
Proof.
  induction batch as [|t batch IH]; intros w G Hb Hn; cbn [fold_left].
  - cbn. repeat split. exact (Good_not_halted _ _ G).
  - pose proof (Hb t (or_introl eq_refl)) as Et.
    assert (Hle : now w <= due t) by (rewrite Et; exact Hn).
    pose proof (Good_not_halted _ _ G) as Hh.
    destruct (fire_now_timers t w Hh Hle) as [En Etm].
    destruct (IH (fire t w)) as (A & B & C).
    + now apply Good_fire.
    + intros u Hu. apply Hb. now right.
    + rewrite En, Et. lia.
    + cbn zeta. rewrite A, B, C, Etm, (fire_fired t w Hh Hle).
      cbn [rev]. rewrite <- app_assoc. repeat split.
Qed.

(** The timers of one batch, all due at [D], are either all pending with
    nothing fired, or all fired, in the order of the batch. *)
Lemma batch_kept (S : list Timer) (D : N) ev w :
  Inv w -> loaded w = true -> (forall t, In t S -> due t = D) ->
  (now w < D /\ timers w = S /\ fired (log w) = []) \/
  (D <= now w /\ timers w = [] /\ fired (log w) = rev S) ->
  let w' := exec ev w in
  (now w' < D /\ timers w' = S /\ fired (log w') = []) \/
  (D <= now w' /\ timers w' = [] /\ fired (log w') = rev S).
Proof.
  intros Hw Hl HS Hcase. cbn zeta. unfold exec.
  rewrite (Good_not_halted _ _ (proj1 Hw)).
  destruct ev as [| |dt|f]; [exact Hcase|rewrite Hl; exact Hcase| |exact Hcase].
  unfold advance. set (deadline := now w + dt).
  destruct Hcase as [(Hn & Et & Ef)|(Hn & Et & Ef)].
  - rewrite Et. destruct (ripe_same_due D deadline S HS) as [Hall Hnone].
    destruct (N.lt_ge_cases deadline D) as [Hlt|Hge].
    + destruct (Hnone Hlt) as [-> ->]. cbn [sort_timers fold_left].
      change (halted (set_timers S w)) with (halted w).
      rewrite (Good_not_halted _ _ (proj1 Hw)). left.
      cbn [set_now set_timers now timers log]. auto.
    + destruct (Hall Hge) as [-> ->]. rewrite (sort_same_due D S HS).
      destruct (fire_all_same_due D S (set_timers [] w)) as (A & B & C).
      * destruct (proj1 Hw). rewrite Et in g_perm0.
        constructor; cbn [set_timers uncaught scheduled timers next_id log now];
          assumption.
      * exact HS.
      * cbn. lia.
      * cbn zeta in A, B, C. rewrite C. right.
        cbn [set_now now timers log]. rewrite A, B.
        cbn [set_timers timers log]. rewrite Ef, app_nil_r. auto.
  - rewrite Et. cbn [filter sort_timers fold_left].
    change (halted (set_timers [] w)) with (halted w).
    rewrite (Good_not_halted _ _ (proj1 Hw)). right.
    cbn [set_now set_timers now timers log]. repeat split; auto.
    unfold deadline. lia.
Qed.

(** X10. After a load in which the script was evaluated once, the alerts
    are processed together and in document order: before the clock has
    moved 4000 past the ready event no callback has run and all timers
    are pending, and from then on none is pending and the callbacks have
    run in the order of the page, one for each element that matched the
    alert selector and failed the danger test at the ready event. *)
Theorem callbacks_run_in_document_order
  (t0 : N) (s0 : TK tk) d (pre post : list (Event tk)) :
  no_ready pre = true -> scripts_in pre = 1%nat ->
  let wr := run pre (page_load tk t0 s0 d) in
  distinct_nodes (doc wr) = true ->
  let w' := run post (exec EvReady wr) in
  (now w' < now wr + 4000 ->
   fired (log w') = [] /\
   map target (timers w') = map node (filter wanted (doc wr))) /\
  (now wr + 4000 <= now w' ->
   timers w' = [] /\
   map target (rev (fired (log w'))) = map node (filter wanted (doc wr))).
Proof.
  intros Hn Hs wr Hd w'.
  destruct (before_ready pre t0 s0 d Hn) as (Hw & Hl & Hsch & Hid & _ & _ & Hls).
  fold wr in Hw, Hl, Hsch, Hid, Hls. rewrite Hs in Hls.
  destruct (listeners wr) as [|l [|l' ls]] eqn:El; try discriminate.
  set (S := fresh 0 (now wr) (eligible (doc wr))).
  assert (HS : forall t, In t S -> due t = now wr + 4000).
  { intros t Ht. apply fresh_target in Ht. destruct Ht as (_ & Ea & Ed).
    unfold due. now rewrite Ea, Ed. }
  assert (Ht : map target S = map node (filter wanted (doc wr))).
  { unfold S. rewrite fresh_targets. now apply eligible_wanted. }
  pose proof (g_perm (proj1 Hw)) as Hp. rewrite Hsch in Hp.
  apply Permutation_nil, app_eq_nil in Hp. destruct Hp as [Etr Efr].
  cbn [app] in Efr.
  assert (H1 : let w1 := exec EvReady wr in
               Inv w1 /\ loaded w1 = true /\
               now w1 < now wr + 4000 /\ timers w1 = S /\ fired (log w1) = []).
  { cbn zeta. split; [now apply Inv_exec|]. split; [now apply ready_loaded|].
    unfold exec. rewrite (Good_not_halted _ _ (proj1 Hw)), Hl, El.
    cbn [fold_left].
    destruct (dispatch_frame l (set_loaded wr)) as (_ & _ & E3 & E4 & E5).
    { apply (Good_not_halted _ _ (proj1 Hw)). }
    cbn zeta in E3, E4, E5. rewrite E3, E4, E5.
    cbn [set_loaded now log timers next_id doc fired].
    rewrite Etr, Efr, Hid. cbn [app]. repeat split. lia. }
  cbn zeta in H1. destruct H1 as (Hw1 & Hl1 & Hc1).
  assert (Hrun : forall evs w,
             Inv w -> loaded w = true ->
             (now w < now wr + 4000 /\ timers w = S /\ fired (log w) = []) \/
             (now wr + 4000 <= now w /\ timers w = [] /\
              fired (log w) = rev S) ->
             (now (run evs w) < now wr + 4000 /\ timers (run evs w) = S /\
              fired (log (run evs w)) = []) \/
             (now wr + 4000 <= now (run evs w) /\ timers (run evs w) = [] /\
              fired (log (run evs w)) = rev S)).
  { induction evs as [|ev evs IH]; intros w Hi Hlo Hc; [exact Hc|].
    cbn [run fold_left]. apply IH.
    - now apply Inv_exec.
    - pose proof (exec_quiet ev w (or_intror Hlo)) as Q.
      now rewrite (q_loaded Q).
    - now apply (batch_kept S (now wr + 4000)). }
  destruct (Hrun post _ Hw1 Hl1 (or_introl Hc1)) as [(A & B & C)|(A & B & C)];
    fold w' in A, B, C.
  - split; [intros _; rewrite B, C; auto|intros Hge; lia].
  - split; [intros Hlt; lia|intros _].
    rewrite B, C, rev_involutive. auto.
Qed.

(** ** After the last callback *)




End More.

(** * Instances of the further properties *)

Lemma nothing_is_closed_before_the_delay_witness :
  let pre : list (Event working) := [EvScript; EvScript] in
  let post : list (Event working) :=
    [EvAdvance 3999; user_removes 2; EvReady] in
  let wr := run pre (page_load working 0 tt three_alerts) in
  let w' := run post (exec EvReady wr) in
  (no_ready pre = true /\ now w' < now wr + 4000) /\
  fired (log w') = [] /\
  Permutation (timers w') (scheduled w') /\
  forall n, calls_get n (log w') = 0%nat /\ calls_close n (log w') = 0%nat.
Proof.
  intros pre post wr w'.
  assert (H1 : no_ready pre = true) by reflexivity.
  assert (H2 : now w' < now wr + 4000) by reflexivity.
  split; [auto|].
  exact (nothing_is_closed_before_the_delay (tk:=working) 0 tt three_alerts
           pre post H1 H2).
Defined.

Lemma calls_only_on_eligible_nodes_witness :
  let pre : list (Event working) := [EvScript] in
  let post : list (Event working) := [EvAdvance 4000] in
  let wr := run pre (page_load working 0 tt three_alerts) in
  let w' := run post (exec EvReady wr) in
  (no_ready pre = true /\ (0 < calls_close 3 (log w'))%nat) /\
  exists e,
    In e (doc wr) /\ node e = 3%nat /\
    matches (ClassSel "alert") e = true /\ danger (doc wr) 3 = false.
Proof.
  intros pre post wr w'.
  assert (H1 : no_ready pre = true) by reflexivity.
  assert (H2 : (0 < calls_close 3 (log w'))%nat) by (vm_compute; lia).
  split; [auto|].
  exact (calls_only_on_eligible_nodes (tk:=working) 0 tt three_alerts
           pre post 3%nat H1 (or_intror H2)).
Defined.

Lemma script_after_ready_never_runs_witness :
  let pre : list (Event working) := [EvAdvance 10] in
  let post : list (Event working) := [EvScript; EvAdvance 9000; EvReady] in
  let wr := run pre (page_load working 0 tt three_alerts) in
  let w' := run post (exec EvReady wr) in
  (no_ready pre = true /\ scripts_in pre = 0%nat) /\
  handler_runs (log w') = 0%nat /\ scheduled w' = [] /\ timers w' = [] /\
  forall n, calls_get n (log w') = 0%nat /\ calls_close n (log w') = 0%nat.
Proof.
  intros pre post wr w'.
  assert (H1 : no_ready pre = true) by reflexivity.
  assert (H2 : scripts_in pre = 0%nat) by reflexivity.
  split; [auto|].
  exact (script_after_ready_never_runs (tk:=working) 0 tt three_alerts
           pre post H1 H2).
Defined.

Lemma page_without_alerts_is_left_alone_witness :
  let pre : list (Event missing) := [EvScript] in
  let post : list (Event missing) := [EvAdvance 4000; EvAdvance 4000] in
  let page := [heading; mkElement 7 "alerts alert-info"] in
  let wr := run pre (page_load missing 0 tt page) in
  let w' := run post (exec EvReady wr) in
  (no_ready pre = true /\
   filter (matches (ClassSel "alert")) (doc wr) = []) /\
  scheduled w' = [] /\ timers w' = [] /\ fired (log w') = [] /\
  forall n, calls_get n (log w') = 0%nat /\ calls_close n (log w') = 0%nat.
Proof.
  intros pre post page wr w'.
  assert (H1 : no_ready pre = true) by reflexivity.
  assert (H2 : filter (matches (ClassSel "alert")) (doc wr) = [])
    by reflexivity.
  split; [auto|].
  exact (page_without_alerts_is_left_alone (tk:=missing) 0 tt page
           pre post H1 H2).
Defined.

Lemma every_evaluation_adds_a_run_witness :
  let pre : list (Event working) := [EvScript; EvAdvance 5; EvScript; EvScript] in
  let post : list (Event working) := [EvAdvance 4000] in
  let wr := run pre (page_load working 0 tt three_alerts) in
  let w' := run post (exec EvReady wr) in
  (no_ready pre = true /\ distinct_nodes (doc wr) = true /\
   In alertA (doc wr) /\ matches (ClassSel "alert") alertA = true /\
   contains "alert-danger" (classList alertA) = false /\
   now wr + 4000 <= now w') /\
  handler_runs (log w') = 3%nat /\
  List.length (aimed_at (node alertA) (scheduled w')) = 3%nat /\
  calls_get (node alertA) (log w') = 3%nat.
Proof.
  intros pre post wr w'.
  assert (H1 : no_ready pre = true) by reflexivity.
  assert (H2 : distinct_nodes (doc wr) = true) by reflexivity.
  assert (H3 : In alertA (doc wr)) by (simpl; auto).
  assert (H4 : matches (ClassSel "alert") alertA = true) by reflexivity.
  assert (H5 : contains "alert-danger" (classList alertA) = false)
    by reflexivity.
  assert (H6 : now wr + 4000 <= now w') by (vm_compute; discriminate).
  split; [repeat split; auto|].
  destruct (every_evaluation_adds_a_run (tk:=working) 0 tt three_alerts
              pre post alertA H1 H2 H3 H4 H5) as (A & B & C).
  split; [exact A|]. split; [exact B|]. exact (C H6).
Defined.

Lemma no_element_is_closed_twice_witness :
  let pre : list (Event working) := [EvScript] in
  let post : list (Event working) :=
    [EvAdvance 4000; page_inserts alertA; EvAdvance 4000] in
  let wr := run pre (page_load working 0 tt three_alerts) in
  let w' := run post (exec EvReady wr) in
  (no_ready pre = true /\ scripts_in pre = 1%nat /\
   distinct_nodes (doc wr) = true) /\
  (calls_close 1 (log w') <= calls_get 1 (log w'))%nat /\
  (calls_get 1 (log w') <= 1)%nat.
Proof.
  intros pre post wr w'.
  assert (H1 : no_ready pre = true) by reflexivity.
  assert (H2 : scripts_in pre = 1%nat) by reflexivity.
  assert (H3 : distinct_nodes (doc wr) = true) by reflexivity.
  split; [auto|].
  exact (no_element_is_closed_twice (tk:=working) 0 tt three_alerts
           pre post 1%nat H1 H2 H3).
Defined.



Lemma timers_follow_document_order_witness :
  let w := run [EvScript; page_inserts alertE]
               (page_load working 0 tt three_alerts) in
  distinct_nodes (doc w) = true /\
  map target (armed_by_ready w) = map node (filter wanted (doc w)) /\
  List.length (armed_by_ready w) = List.length (filter wanted (doc w)).
Proof.
  intros w.
  assert (H1 : distinct_nodes (doc w) = true) by reflexivity.
  split; [exact H1|].
  exact (timers_follow_document_order w H1).
Defined.

Lemma callbacks_run_in_document_order_witness :
  let pre : list (Event strict) := [EvScript; page_inserts alertE] in
  let post : list (Event strict) :=
    [EvAdvance 1000; user_removes 1; EvAdvance 3000] in
  let wr := run pre (page_load strict 0 tt three_alerts) in
  let w' := run post (exec EvReady wr) in
  (no_ready pre = true /\ scripts_in pre = 1%nat /\
   distinct_nodes (doc wr) = true /\ now wr + 4000 <= now w') /\
  timers w' = [] /\
  map target (rev (fired (log w'))) = map node (filter wanted (doc wr)).
Proof.
  intros pre post wr w'.
  assert (H1 : no_ready pre = true) by reflexivity.
  assert (H2 : scripts_in pre = 1%nat) by reflexivity.
  assert (H3 : distinct_nodes (doc wr) = true) by reflexivity.
  assert (H4 : now wr + 4000 <= now w') by (vm_compute; discriminate).
  split; [auto|].
  exact (proj2 (callbacks_run_in_document_order (tk:=strict) 0 tt three_alerts
                  pre post H1 H2 H3) H4).
Defined.

